(** * roboptim-core-plugin-ipopt: the Ipopt adapter [MyTNLP] and [IpoptSolver]

    Shallow embedding of [src/roboptim-core-ipopt-plugin.cc].  The callbacks
    of [MyTNLP] are functions over the solver state (the problem and the
    [result_] slot).  A buffer handed over by the engine is a list written by
    index, a [NULL] buffer is [None], and a failed [assert] is [None] as the
    result of the callback. *)

From Stdlib Require Import ZArith Lia PrimFloat.
From stdpp Require Import base option list strings.

Local Open Scope Z_scope.

(** ** Ipopt's [Index]: a C [int] *)

Module Index.
Definition max : Z := 2 ^ 31 - 1.
Definition min : Z := - 2 ^ 31.

(** Reduction to 32 bits, two's complement.  Applied wherever the source
    computes in [Index]/[int] and the result may leave the range. *)
Definition wrap (z : Z) : Z := (z + 2 ^ 31) mod 2 ^ 32 - 2 ^ 31.

Definition mul (a b : Z) : Z := wrap (a * b).
Definition succ (a : Z) : Z := wrap (a + 1).

(** Conversion of a [size_t] to [Index]. *)
Definition of_size (s : nat) : Z := wrap (Z.of_nat s).
End Index.

(** ** Ipopt's [Number]

    [Number] is [double].  The adapter only adds and multiplies scalars and
    writes the constants 0 and 1, so the model is generic in the scalar type
    and these operations; no algebraic law is assumed of them.  [float_ops]
    instantiates it with binary64 arithmetic. *)

Class NumberOps (Number : Type) := {
  zero : Number;
  one : Number;
  add : Number → Number → Number;
  mul : Number → Number → Number
}.

#[global] Instance float_ops : NumberOps float := {|
  zero := 0%float;
  one := 1%float;
  add := PrimFloat.add;
  mul := PrimFloat.mul
|}.

(** ** Engine enumerations

    The enumerations belong to Ipopt; their members are the case labels of
    the two [switch] statements of the source. *)

Inductive IndexStyleEnum := C_STYLE | FORTRAN_STYLE.

Inductive LinearityType := LINEAR | NON_LINEAR.

Inductive AlgorithmMode := RegularMode | RestorationPhaseMode.

Inductive SolverReturn :=
  | SUCCESS
  | MAXITER_EXCEEDED
  | STOP_AT_TINY_STEP
  | STOP_AT_ACCEPTABLE_POINT
  | LOCAL_INFEASIBILITY
  | USER_REQUESTED_STOP
  | FEASIBLE_POINT_FOUND
  | DIVERGING_ITERATES
  | RESTORATION_FAILURE
  | ERROR_IN_STEP_COMPUTATION
  | INVALID_NUMBER_DETECTED
  | TOO_FEW_DEGREES_OF_FREEDOM
  | INVALID_OPTION
  | OUT_OF_MEMORY
  | INTERNAL_ERROR.

Inductive ApplicationReturnStatus :=
  | Solve_Succeeded
  | Solved_To_Acceptable_Level
  | Infeasible_Problem_Detected
  | Search_Direction_Becomes_Too_Small
  | Diverging_Iterates
  | User_Requested_Stop
  | Feasible_Point_Found
  | Maximum_Iterations_Exceeded
  | Restoration_Failed
  | Error_In_Step_Computation
  | Not_Enough_Degrees_Of_Freedom
  | Invalid_Problem_Definition
  | Invalid_Option
  | Invalid_Number_Detected
  | Unrecoverable_Exception
  | NonIpopt_Exception_Thrown
  | Insufficient_Memory
  | Internal_Error.

(** ** roboptim-core collaborators *)

(** The classes of roboptim-core's function hierarchy that the source names,
    each deriving from the previous one. *)
Inductive function_class :=
  | Function_class
  | DerivableFunction_class
  | TwiceDerivableFunction_class
  | QuadraticFunction_class
  | LinearFunction_class.

#[global] Instance function_class_eq_dec : EqDecision function_class.
Proof. solve_decision. Defined.

Definition class_depth (c : function_class) : nat :=
  match c with
  | Function_class => 0
  | DerivableFunction_class => 1
  | TwiceDerivableFunction_class => 2
  | QuadraticFunction_class => 3
  | LinearFunction_class => 4
  end.

(** [derives_from c base]: a reference to [c] converts to a reference to
    [base]. *)
Definition derives_from (c base : function_class) : bool :=
  (class_depth base <=? class_depth c)%nat.

(** A function object as the adapter uses it: input size [n], [operator()],
    [gradient (x, i)] and [hessian (x, i)].  A matrix is the list of its
    rows. *)
Module TwiceDerivableFunction.
Record t (Number : Type) := {
  n : nat;
  call : list Number → list Number;
  gradient : list Number → nat → list Number;
  hessian : list Number → nat → list (list Number)
}.
Arguments n {_} _.
Arguments call {_} _ _.
Arguments gradient {_} _ _ _.
Arguments hessian {_} _ _ _.
End TwiceDerivableFunction.

(** [IpoptSolver::problem_t].  [F] is the static type of [function ()] and
    [CF] the static type of a dereferenced element of [constraints ()]; both
    are fixed by the solver's declaration, not by the objects stored. *)
Record problem_t (Number : Type) := {
  F : function_class;
  CF : function_class;
  function : TwiceDerivableFunction.t Number;
  constraints : list (TwiceDerivableFunction.t Number);
  argBounds : list (Number * Number);
  bounds : list (Number * Number);
  argScales : list Number;
  scales : list Number;
  startingPoint : option (list Number)
}.
Arguments F {_} _.
Arguments CF {_} _.
Arguments function {_} _.
Arguments constraints {_} _.
Arguments argBounds {_} _.
Arguments bounds {_} _.
Arguments argScales {_} _.
Arguments scales {_} _.
Arguments startingPoint {_} _.

Module Result.
Record t (Number : Type) := {
  inputSize : nat;
  outputSize : nat;
  x : list Number;
  value : list Number;
  lambda : list Number
}.
Arguments inputSize {_} _.
Arguments outputSize {_} _.
Arguments x {_} _.
Arguments value {_} _.
Arguments lambda {_} _.
End Result.

(** The solver's result slot: no solution yet, a [Result], a [SolverError]
    with its message, or a [ResultWithWarnings] (a [Result] and the messages
    of its warnings). *)
Inductive result_t (Number : Type) :=
  | NoSolution
  | IsResult (res : Result.t Number)
  | IsSolverError (what : string)
  | IsResultWithWarnings (res : Result.t Number) (warnings : list string).
Arguments NoSolution {_}.
Arguments IsResult {_} _.
Arguments IsSolverError {_} _.
Arguments IsResultWithWarnings {_} _ _.

Record IpoptSolver (Number : Type) := {
  problem : problem_t Number;
  result_ : result_t Number
}.
Arguments problem {_} _.
Arguments result_ {_} _.

Definition set_result {Number} (s : IpoptSolver Number) (r : result_t Number)
  : IpoptSolver Number :=
  {| problem := problem s; result_ := r |}.

(** [assert (b)]. *)
Definition assert (b : bool) : option unit := if b then Some tt else None.

(** [for (int i = 0; i < bound; ++i) body]: the counter stays below [bound],
    itself an [int]. *)
Definition for_loop {S : Type} (bound : Z) (body : Z → S → S) (st : S) : S :=
  fold_left (λ st i, body (Z.of_nat i) st) (seq 0 (Z.to_nat bound)) st.

(** The two nested loops of the dense enumerations, with the running [idx]:
[[
  int idx = 0;
  for (int i = 0; i < rows; ++i)
    for (int j = 0; j < cols; ++j)
      { write (idx, i, j); ++idx; }
]] *)
Definition dense_loop {S : Type} (rows cols : Z)
    (write : Z → Z → Z → S → S) (st : S) : Z * S :=
  for_loop rows (λ i,
    for_loop cols (λ j '(idx, st), (Index.succ idx, write idx i j st)))
    (0, st).

(** ** The adapter *)

Section MyTNLP.
Context {Number : Type} `{NumberOps Number}.

(** *** uBLAS vectors and matrices *)

(** [vector_t v (n)] and [matrix_t h (r, c)]; fresh storage reads as zero. *)
Definition vector (n : nat) : list Number := replicate n zero.
Definition matrix (r c : nat) : list (list Number) :=
  replicate r (replicate c zero).

(** [v[i]] and [h (i, j)].  Reads outside the storage are undefined in the
    source; they read as zero here. *)
Definition vget (v : list Number) (i : nat) : Number := default zero (v !! i).
Definition mget (h : list (list Number)) (i j : nat) : Number :=
  vget (default [] (h !! i)) j.

(** [t * e] for a scalar [t] and a matrix [e]: entry by entry, the scalar on
    the left. *)
Definition scalar_times (t : Number) (e : list (list Number))
  : list (list Number) :=
  (λ row : list Number, mul t <$> row) <$> e.

(** [h += e]: entry by entry, the old entry on the left. *)
Definition plus_assign (h e : list (list Number)) : list (list Number) :=
  zip_with (zip_with add) h e.

(** [v.resize (n)]: keeps the leading entries. *)
Definition resize (n : nat) (v : list Number) : list Number :=
  take n v ++ replicate (n - length v)%nat zero.

(** *** roboptim-core's util.hh *)

(** Modelled from the spec: [array_to_vector] is declared in roboptim-core's
    util.hh, which is not part of the sources.  It copies from the flat
    buffer into a container the caller has sized, preserving index order:
    every entry of [dst] is overwritten, and [dst] keeps its size. *)
Definition array_to_vector (dst : list Number) (src : list Number)
  : list Number :=
  imap (λ i _, vget src i) dst.

(** Modelled from the spec: [vector_to_array], the inverse copy of util.hh:
    the entries of the container go to the head of the flat buffer. *)
Definition vector_to_array (dst : list Number) (src : list Number)
  : list Number :=
  list_inserts 0 src dst.

(** Modelled from the spec: [jacobian_from_gradients] of util.hh evaluates
    each constraint's gradient (output component 0) at [x] and writes its
    components into row [i] of the pre-sized matrix. *)
Definition jacobian_from_gradients (jac : list (list Number))
    (c : list (TwiceDerivableFunction.t Number)) (x : list Number)
  : list (list Number) :=
  imap (λ i row,
    match c !! i with
    | Some ci =>
        imap (λ j _, vget (TwiceDerivableFunction.gradient ci x 0) j) row
    | None => row
    end) jac.

(** *** [cfsqp_tag]

    The two overloads take [const LinearFunction&] and [const Function&].
    Overload resolution is on the static type of the argument: the first
    overload is chosen exactly when that type derives from [LinearFunction].
    The object itself is not inspected. *)
Definition cfsqp_tag (static_type : function_class)
    (f : TwiceDerivableFunction.t Number) : LinearityType :=
  if derives_from static_type LinearFunction_class then LINEAR else NON_LINEAR.

(** *** Structural queries *)

Definition get_nlp_info (s : IpoptSolver Number)
  : bool * (Z * Z * Z * Z * IndexStyleEnum) :=
  let n := Index.of_size (TwiceDerivableFunction.n (function (problem s))) in
  let m := Index.of_size (length (constraints (problem s))) in
  let nnz_jac_g := Index.mul n m in
  let nnz_h_lag := Index.mul n n in
  (true, (n, m, nnz_jac_g, nnz_h_lag, C_STYLE)).

(** [assert (solver_.problem ().function ().n - n == 0)] and
    [assert (solver_.problem ().constraints ().size () - m == 0)]. *)
Definition assert_n (s : IpoptSolver Number) (n : Z) : option unit :=
  assert (Z.of_nat (TwiceDerivableFunction.n (function (problem s))) =? n).
Definition assert_m (s : IpoptSolver Number) (m : Z) : option unit :=
  assert (Z.of_nat (length (constraints (problem s))) =? m).

Definition get_variables_linearity (s : IpoptSolver Number) (n : Z)
    (var_types : list LinearityType) : option (bool * list LinearityType) :=
  _ ← assert_n s n;
  let var_types :=
    for_loop n (λ i var_types,
      <[Z.to_nat i := cfsqp_tag (F (problem s)) (function (problem s))]>
        var_types) var_types in
  Some (true, var_types).

Definition get_function_linearity (s : IpoptSolver Number) (m : Z)
    (const_types : list LinearityType) : option (bool * list LinearityType) :=
  _ ← assert_m s m;
  let const_types :=
    for_loop m (λ i const_types,
      match constraints (problem s) !! Z.to_nat i with
      | Some c => <[Z.to_nat i := cfsqp_tag (CF (problem s)) c]> const_types
      | None => const_types
      end) const_types in
  Some (true, const_types).

(** The outputs are the buffers [x], [z_L], [z_U] and the solver. *)
Definition get_starting_point (s : IpoptSolver Number)
    (n : Z) (init_x : bool) (x : list Number)
    (init_z : bool) (z_L z_U : list Number)
    (m : Z) (init_lambda : bool) (lambda : list Number)
  : option (bool * (list Number * list Number * list Number)
            * IpoptSolver Number) :=
  _ ← assert_n s n;
  _ ← assert_m s m;
  _ ← assert (eqb init_lambda false);
  let '(z_L, z_U) :=
    if init_z then
      for_loop n (λ i '(z_L, z_U),
        (<[Z.to_nat i := one]> z_L, <[Z.to_nat i := one]> z_U)) (z_L, z_U)
    else (z_L, z_U) in
  match startingPoint (problem s) with
  | None =>
      if init_x then
        Some (false, (x, z_L, z_U),
              set_result s
                (IsSolverError "Ipopt method needs a starting point."))
      else Some (true, (x, z_L, z_U), s)
  | Some x0 => Some (true, (vector_to_array x x0, z_L, z_U), s)
  end.

Definition get_warm_start_iterate : bool := false.

(** *** Value queries *)

Definition eval_f (s : IpoptSolver Number) (n : Z) (x : list Number)
    (new_x : bool) : option (bool * Number) :=
  _ ← assert_n s n;
  let x_ := array_to_vector (vector (Z.to_nat n)) x in
  let obj_value :=
    vget (TwiceDerivableFunction.call (function (problem s)) x_) 0 in
  Some (true, obj_value).

Definition eval_grad_f (s : IpoptSolver Number) (n : Z) (x : list Number)
    (new_x : bool) (grad_f : list Number) : option (bool * list Number) :=
  _ ← assert_n s n;
  let x_ := array_to_vector (vector (Z.to_nat n)) x in
  let grad := TwiceDerivableFunction.gradient (function (problem s)) x_ 0 in
  Some (true, vector_to_array grad_f grad).

Definition eval_g (s : IpoptSolver Number) (n : Z) (x : list Number)
    (new_x : bool) (m : Z) (g : list Number) : option (bool * list Number) :=
  _ ← assert_n s n;
  _ ← assert_m s m;
  let x_ := array_to_vector (vector (Z.to_nat n)) x in
  let g_ := vector (Z.to_nat m) in
  let '(g_, i) :=
    fold_left (λ '(g_, i) it,
        (<[Z.to_nat i := vget (TwiceDerivableFunction.call it x_) 0]> g_,
         Index.succ i))
      (constraints (problem s)) (g_, 0) in
  Some (true, vector_to_array g g_).

(** The outputs are the buffers [iRow], [jCol] and [values]. *)
Definition eval_jac_g (s : IpoptSolver Number) (n : Z) (x : list Number)
    (new_x : bool) (m : Z) (nele_jac : Z) (iRow jCol : list Z)
    (values : option (list Number))
  : option (bool * (list Z * list Z * option (list Number))) :=
  _ ← assert_n s n;
  _ ← assert_m s m;
  match values with
  | None =>
      let '(idx, (iRow, jCol)) :=
        dense_loop m n (λ idx i j '(iRow, jCol),
          (<[Z.to_nat idx := i]> iRow, <[Z.to_nat idx := j]> jCol))
          (iRow, jCol) in
      Some (true, (iRow, jCol, None))
  | Some values =>
      let x_ := array_to_vector (vector (Z.to_nat n)) x in
      let jac :=
        matrix (length (constraints (problem s)))
               (TwiceDerivableFunction.n (function (problem s))) in
      let jac := jacobian_from_gradients jac (constraints (problem s)) x_ in
      let '(idx, values) :=
        dense_loop m n (λ idx i j values,
          <[Z.to_nat idx := mget jac (Z.to_nat i) (Z.to_nat j)]> values)
          values in
      Some (true, (iRow, jCol, Some values))
  end.

(** [compute_hessian]; the matrix [h] passed in is overwritten by the first
    assignment. *)
Definition compute_hessian (s : IpoptSolver Number) (h : list (list Number))
    (x : list Number) (obj_factor : Number) (lambda : list Number)
  : list (list Number) :=
  let fct_h := TwiceDerivableFunction.hessian (function (problem s)) x 0 in
  let h := scalar_times obj_factor fct_h in
  let '(h, i) :=
    fold_left (λ '(h, i) it,
        (plus_assign h
           (scalar_times (vget lambda (Z.to_nat i))
              (TwiceDerivableFunction.hessian it x 0)),
         Index.succ i))
      (constraints (problem s)) (h, 0) in
  h.

Definition eval_h (s : IpoptSolver Number) (n : Z) (x : list Number)
    (new_x : bool) (obj_factor : Number) (m : Z) (lambda : list Number)
    (new_lambda : bool) (nele_hess : Z) (iRow jCol : list Z)
    (values : option (list Number))
  : option (bool * (list Z * list Z * option (list Number))) :=
  _ ← assert_n s n;
  _ ← assert_m s m;
  match values with
  | None =>
      let '(idx, (iRow, jCol)) :=
        dense_loop n n (λ idx i j '(iRow, jCol),
          (<[Z.to_nat idx := i]> iRow, <[Z.to_nat idx := j]> jCol))
          (iRow, jCol) in
      _ ← assert (idx =? nele_hess);
      Some (true, (iRow, jCol, None))
  | Some values =>
      let x_ := array_to_vector (vector (Z.to_nat n)) x in
      let lambda_ := array_to_vector (vector (Z.to_nat m)) lambda in
      let h :=
        matrix (TwiceDerivableFunction.n (function (problem s)))
               (TwiceDerivableFunction.n (function (problem s))) in
      let h := compute_hessian s h x_ obj_factor lambda in
      let '(idx, values) :=
        dense_loop n n (λ idx i j values,
          <[Z.to_nat idx := mget h (Z.to_nat i) (Z.to_nat j)]> values)
          values in
      Some (true, (iRow, jCol, Some values))
  end.

Definition intermediate_callback (mode : AlgorithmMode) (iter : Z)
    (obj_value inf_pr inf_du mu d_norm regularization_size alpha_du alpha_pr
      : Number) (ls_trials : Z) : bool :=
  true.

End MyTNLP.

(** ** The outcome translator and the solver facade *)

Inductive app_call := Call_Initialize | Call_OptimizeTNLP.

(** The engine's application object as [solve] uses it: the status returned
    by [Initialize] and the effect of [OptimizeTNLP] on the solver, whose
    callbacks it drives. *)
Record IpoptApplication (Number : Type) := {
  Initialize : string → ApplicationReturnStatus;
  OptimizeTNLP : IpoptSolver Number → IpoptSolver Number
}.
Arguments Initialize {_} _ _.
Arguments OptimizeTNLP {_} _ _.

Section Outcome.
Context {Number : Type} `{NumberOps Number}.

(** roboptim-core's [Result] is declared outside the sources.  Its
    constructor receives the input and the output size only; [Result_lambda]
    is the multiplier vector a freshly constructed result holds. *)
Variable Result_lambda : nat → nat → list Number.

Definition Result_ctor (inputSize outputSize : nat) : Result.t Number :=
  {| Result.inputSize := inputSize;
     Result.outputSize := outputSize;
     Result.x := vector inputSize;
     Result.value := vector outputSize;
     Result.lambda := Result_lambda inputSize outputSize |}.

Definition with_x (res : Result.t Number) (v : list Number) :=
  {| Result.inputSize := Result.inputSize res;
     Result.outputSize := Result.outputSize res;
     Result.x := v;
     Result.value := Result.value res;
     Result.lambda := Result.lambda res |}.

Definition with_value (res : Result.t Number) (v : list Number) :=
  {| Result.inputSize := Result.inputSize res;
     Result.outputSize := Result.outputSize res;
     Result.x := Result.x res;
     Result.value := v;
     Result.lambda := Result.lambda res |}.

Definition with_lambda (res : Result.t Number) (v : list Number) :=
  {| Result.inputSize := Result.inputSize res;
     Result.outputSize := Result.outputSize res;
     Result.x := Result.x res;
     Result.value := Result.value res;
     Result.lambda := v |}.

Definition finalize_solution (s : IpoptSolver Number) (status : SolverReturn)
    (n : Z) (x z_L z_U : list Number) (m : Z) (g lambda : list Number)
    (obj_value : Number) : option (IpoptSolver Number) :=
  _ ← assert_n s n;
  _ ← assert_m s m;
  match status with
  | FEASIBLE_POINT_FOUND | SUCCESS =>
      let res := Result_ctor (Z.to_nat n) 1 in
      let res := with_x res (array_to_vector (Result.x res) x) in
      let res := with_lambda res (resize (Z.to_nat m) (Result.lambda res)) in
      let res := with_lambda res (array_to_vector (Result.lambda res) lambda) in
      let res := with_value res (<[0%nat := obj_value]> (Result.value res)) in
      Some (set_result s (IsResult res))
  | MAXITER_EXCEEDED =>
      Some (set_result s (IsSolverError "Max iteration exceeded."))
  | STOP_AT_TINY_STEP =>
      Some (set_result s
              (IsSolverError "Algorithm proceeds with very little progress."))
  | STOP_AT_ACCEPTABLE_POINT =>
      let res := Result_ctor (Z.to_nat n) 1 in
      let res := with_x res (array_to_vector (Result.x res) x) in
      let res := with_lambda res (array_to_vector (Result.lambda res) lambda) in
      let res := with_value res (<[0%nat := obj_value]> (Result.value res)) in
      let warnings := [] ++ ["Acceptable point."%string] in
      Some (set_result s (IsResultWithWarnings res warnings))
  | LOCAL_INFEASIBILITY =>
      Some (set_result s
              (IsSolverError
                 "Algorithm converged to a point of local infeasibility."))
  | USER_REQUESTED_STOP =>
      _ ← assert false;
      Some s
  | DIVERGING_ITERATES =>
      Some (set_result s (IsSolverError "Iterate diverges."))
  | RESTORATION_FAILURE =>
      Some (set_result s (IsSolverError "Restoration phase failed."))
  | ERROR_IN_STEP_COMPUTATION =>
      Some (set_result s
              (IsSolverError
  "Unrecoverable error while IPOPT tried to compute the search direction."))
  | INVALID_NUMBER_DETECTED =>
      Some (set_result s (IsSolverError "IPOPT received an invalid number."))
  | INTERNAL_ERROR =>
      Some (set_result s (IsSolverError "Unknown internal error."))
  | TOO_FEW_DEGREES_OF_FREEDOM =>
      Some (set_result s (IsSolverError "Two few degrees of freedom."))
  | INVALID_OPTION =>
      Some (set_result s (IsSolverError "Invalid option."))
  | OUT_OF_MEMORY =>
      Some (set_result s (IsSolverError "Out of memory."))
  end.

(** [IpoptSolver::solve].  [Initialize] receives the empty string; the
    result lists the calls made on [app_]. *)
Definition solve (app_ : IpoptApplication Number) (s : IpoptSolver Number)
  : option (list app_call * IpoptSolver Number) :=
  let status := Initialize app_ EmptyString in
  match status with
  | Solve_Succeeded =>
      Some ([Call_Initialize; Call_OptimizeTNLP], OptimizeTNLP app_ s)
  | Solved_To_Acceptable_Level =>
      Some ([Call_Initialize; Call_OptimizeTNLP], OptimizeTNLP app_ s)
  | Infeasible_Problem_Detected =>
      Some ([Call_Initialize],
            set_result s (IsSolverError "Ipopt: infeasible problem detected."))
  | Search_Direction_Becomes_Too_Small =>
      Some ([Call_Initialize],
            set_result s (IsSolverError "Ipopt: search direction too small."))
  | Diverging_Iterates =>
      Some ([Call_Initialize],
            set_result s (IsSolverError "Ipopt: diverging iterates."))
  | User_Requested_Stop =>
      _ ← assert false;
      Some ([Call_Initialize], s)
  | Feasible_Point_Found =>
      Some ([Call_Initialize; Call_OptimizeTNLP], OptimizeTNLP app_ s)
  | Maximum_Iterations_Exceeded =>
      Some ([Call_Initialize],
            set_result s (IsSolverError "Ipopt: maximum iterations exceeded."))
  | Restoration_Failed =>
      Some ([Call_Initialize],
            set_result s (IsSolverError "Ipopt: restoration failed."))
  | Error_In_Step_Computation =>
      Some ([Call_Initialize],
            set_result s (IsSolverError "Ipopt: error in step computation."))
  | Not_Enough_Degrees_Of_Freedom =>
      Some ([Call_Initialize],
            set_result s
              (IsSolverError "Ipopt: not enough degrees of freedom."))
  | Invalid_Problem_Definition =>
      Some ([Call_Initialize],
            set_result s (IsSolverError "Ipopt: invalid problem definition."))
  | Invalid_Option =>
      Some ([Call_Initialize],
            set_result s (IsSolverError "Ipopt: invalid option."))
  | Invalid_Number_Detected =>
      Some ([Call_Initialize],
            set_result s (IsSolverError "Ipopt: invalid number detected."))
  | Unrecoverable_Exception =>
      Some ([Call_Initialize],
            set_result s (IsSolverError "Ipopt: unrecoverable exception."))
  | NonIpopt_Exception_Thrown =>
      _ ← assert false;
      Some ([Call_Initialize], s)
  | Insufficient_Memory =>
      Some ([Call_Initialize],
            set_result s (IsSolverError "Ipopt: insufficient memory."))
  | Internal_Error =>
      Some ([Call_Initialize],
            set_result s (IsSolverError "Ipopt: internal error."))
  end.

End Outcome.

(** ** Reference definitions, following the specification *)

Section Reference.
Context {Number : Type} `{NumberOps Number}.

(** The counts the engine passes to a callback are those of the problem:
    the two assertions heading the callbacks hold. *)
Definition dims_agree (s : IpoptSolver Number) (n m : Z) : Prop :=
  Z.of_nat (TwiceDerivableFunction.n (function (problem s))) = n ∧
  Z.of_nat (length (constraints (problem s))) = m.

(** The nonzero counts of [get_nlp_info] are the dense counts [n * m] and
    [n * n] of the problem. *)
Definition reports_dense_counts (s : IpoptSolver Number) : Prop :=
  let n := Z.of_nat (TwiceDerivableFunction.n (function (problem s))) in
  let m := Z.of_nat (length (constraints (problem s))) in
  let '(_, (_, _, nnz_jac_g, nnz_h_lag, _)) := get_nlp_info s in
  nnz_jac_g = n * m ∧ nnz_h_lag = n * n.

(** [is_matrix r c h]: [h] has [r] rows of [c] entries each. *)
Definition is_matrix (r c : nat) (h : list (list Number)) : bool :=
  (length h =? r)%nat && forallb (λ row, (length row =? c)%nat) h.

(** The Hessians of the objective and of every constraint at [x] are
    [n × n], for [n] the problem's variable count. *)
Definition hessians_dense (s : IpoptSolver Number) (x : list Number) : bool :=
  let n := TwiceDerivableFunction.n (function (problem s)) in
  is_matrix n n (TwiceDerivableFunction.hessian (function (problem s)) x 0)
  && forallb (λ g, is_matrix n n (TwiceDerivableFunction.hessian g x 0))
       (constraints (problem s)).

(** Entry [(r, c)] of the reference sum
    [objectiveFactor · Hessian(f)(x) + Σ_i constraintMultipliers[i] ·
    Hessian(g_i)(x)], accumulated from the objective term through the
    constraints [i = 0 .. m-1] in that order. *)
Definition lagrangian_hessian_entry (s : IpoptSolver Number)
    (x : list Number) (objectiveFactor : Number)
    (constraintMultipliers : list Number) (r c : nat) : Number :=
  fold_left (λ acc i,
      match constraints (problem s) !! i with
      | Some g_i =>
          add acc
            (mul (vget constraintMultipliers i)
                 (mget (TwiceDerivableFunction.hessian g_i x 0) r c))
      | None => acc
      end)
    (seq 0 (length (constraints (problem s))))
    (mul objectiveFactor
       (mget (TwiceDerivableFunction.hessian (function (problem s)) x 0) r c)).

(** The structure and value buffers agree position by position on a dense
    [rows × cols] matrix with entries [entry]: position [k] carries the pair
    [(i, j)] with [k = i * cols + j] and the value [entry i j]. *)
Definition aligned (rows cols : Z) (iRow jCol : list Z)
    (values : list Number) (entry : nat → nat → Number) : Prop :=
  ∀ k : nat, Z.of_nat k < rows * cols →
    ∃ i j : Z,
      iRow !! k = Some i ∧ jCol !! k = Some j ∧
      0 ≤ i < rows ∧ 0 ≤ j < cols ∧ Z.of_nat k = i * cols + j ∧
      values !! k = Some (entry (Z.to_nat i) (Z.to_nat j)).

End Reference.

(** The outcome families of the translation table. *)
Inductive outcome_family :=
  | Family_Success
  | Family_SuccessWithWarnings
  | Family_Error
  | Family_Unreachable.

Definition termination_family (status : SolverReturn) : outcome_family :=
  match status with
  | SUCCESS | FEASIBLE_POINT_FOUND => Family_Success
  | STOP_AT_ACCEPTABLE_POINT => Family_SuccessWithWarnings
  | MAXITER_EXCEEDED | STOP_AT_TINY_STEP | LOCAL_INFEASIBILITY
  | DIVERGING_ITERATES | RESTORATION_FAILURE | ERROR_IN_STEP_COMPUTATION
  | INVALID_NUMBER_DETECTED | INTERNAL_ERROR | TOO_FEW_DEGREES_OF_FREEDOM
  | INVALID_OPTION | OUT_OF_MEMORY => Family_Error
  | USER_REQUESTED_STOP => Family_Unreachable
  end.

(** The variant a stored result belongs to; an empty slot has none. *)
Definition result_family {Number : Type} (r : result_t Number)
  : option outcome_family :=
  match r with
  | NoSolution => None
  | IsResult _ => Some Family_Success
  | IsResultWithWarnings _ _ => Some Family_SuccessWithWarnings
  | IsSolverError _ => Some Family_Error
  end.

(** The statuses of [Initialize] on which the solve proceeds: "proceed" and
    the two statuses that proceed with caveats. *)
Definition proceeds (status : ApplicationReturnStatus) : bool :=
  match status with
  | Solve_Succeeded | Solved_To_Acceptable_Level | Feasible_Point_Found => true
  | _ => false
  end.

(** The two behaviours of [solve] the specification names: the optimize step
    is driven, or an error is recorded and the engine is not entered. *)
Definition drives_optimize {Number : Type} (app_ : IpoptApplication Number)
    (s : IpoptSolver Number) : Prop :=
  solve app_ s
  = Some ([Call_Initialize; Call_OptimizeTNLP], OptimizeTNLP app_ s).

Definition records_error {Number : Type} (app_ : IpoptApplication Number)
    (s : IpoptSolver Number) : Prop :=
  ∃ what : string,
    solve app_ s = Some ([Call_Initialize], set_result s (IsSolverError what)).

(** ** A concrete problem: minimise [x0² + x1²] subject to [x0 + x1 ≥ 1] *)

Module Sample.
Local Open Scope float_scope.

Definition objective : TwiceDerivableFunction.t float := {|
  TwiceDerivableFunction.n := 2;
  TwiceDerivableFunction.call := λ x,
    [vget x 0 * vget x 0 + vget x 1 * vget x 1];
  TwiceDerivableFunction.gradient := λ x _, [2 * vget x 0; 2 * vget x 1];
  TwiceDerivableFunction.hessian := λ _ _, [[2; 0]; [0; 2]]
|}.

Definition constraint : TwiceDerivableFunction.t float := {|
  TwiceDerivableFunction.n := 2;
  TwiceDerivableFunction.call := λ x, [vget x 0 + vget x 1];
  TwiceDerivableFunction.gradient := λ _ _, [1; 1];
  TwiceDerivableFunction.hessian := λ _ _, [[0; 0]; [0; 0]]
|}.

(** A second constraint, [x0 · x1], with a Hessian that is not zero. *)
Definition product : TwiceDerivableFunction.t float := {|
  TwiceDerivableFunction.n := 2;
  TwiceDerivableFunction.call := λ x, [vget x 0 * vget x 1];
  TwiceDerivableFunction.gradient := λ x _, [vget x 1; vget x 0];
  TwiceDerivableFunction.hessian := λ _ _, [[0; 1]; [1; 0]]
|}.

Definition pb (cs : list (TwiceDerivableFunction.t float))
    (x0 : option (list float)) : problem_t float := {|
  F := TwiceDerivableFunction_class;
  CF := TwiceDerivableFunction_class;
  function := objective;
  constraints := cs;
  argBounds := [(0, 2); (0, 2)];
  bounds := (λ _, (1, infinity)) <$> cs;
  argScales := [1; 1];
  scales := (λ _, 1) <$> cs;
  startingPoint := x0
|}.

Definition solver : IpoptSolver float :=
  {| problem := pb [constraint] (Some [0.5; 0.5]); result_ := NoSolution |}.

Definition solver2 : IpoptSolver float :=
  {| problem := pb [constraint; product] (Some [0.5; 0.5]);
     result_ := NoSolution |}.

Definition solver_without_start : IpoptSolver float :=
  {| problem := pb [constraint] None; result_ := NoSolution |}.

(** An objective over 46341 variables and no constraint. *)
Definition wide : IpoptSolver float :=
  {| problem :=
       {| F := TwiceDerivableFunction_class;
          CF := TwiceDerivableFunction_class;
          function :=
            {| TwiceDerivableFunction.n := Z.to_nat 46341;
               TwiceDerivableFunction.call := λ _, [0];
               TwiceDerivableFunction.gradient := λ _ _, [];
               TwiceDerivableFunction.hessian := λ _ _, [] |};
          constraints := [];
          argBounds := [];
          bounds := [];
          argScales := [];
          scales := [];
          startingPoint := None |};
     result_ := NoSolution |}.

(** roboptim-core's [Result] constructor leaves the multipliers empty. *)
Definition Result_lambda (inputSize outputSize : nat) : list float := [].

Definition app (status : ApplicationReturnStatus) : IpoptApplication float :=
  {| Initialize := λ _, status; OptimizeTNLP := λ s, s |}.

End Sample.

(** ** The remaining structural queries *)

Section MoreQueries.
Context {Number : Type} `{NumberOps Number}.

(** The loop shared by the two halves of [get_bounds_info]:
[[
  for (citer_t it = bs.begin (); it != bs.end (); ++it)
    *lo++ = it->first, *hi++ = it->second;
]]
    A pointer into a buffer is its offset. *)
Definition copy_bounds (bs : list (Number * Number)) (lo hi : list Number)
  : list Number * list Number :=
  let '(_, _, lo, hi) :=
    fold_left (λ '(p_lo, p_hi, lo, hi) it,
        (S p_lo, S p_hi, <[p_lo := it.1]> lo, <[p_hi := it.2]> hi))
      bs (0%nat, 0%nat, lo, hi) in
  (lo, hi).

(** The outputs are the buffers [x_l], [x_u], [g_l] and [g_u]. *)
Definition get_bounds_info (s : IpoptSolver Number)
    (n : Z) (x_l x_u : list Number) (m : Z) (g_l g_u : list Number)
  : option (bool * (list Number * list Number * list Number * list Number)) :=
  _ ← assert_n s n;
  _ ← assert_m s m;
  let '(x_l, x_u) := copy_bounds (argBounds (problem s)) x_l x_u in
  let '(g_l, g_u) := copy_bounds (bounds (problem s)) g_l g_u in
  Some (true, (x_l, x_u, g_l, g_u)).

(** [memcpy (dst, src, count * sizeof (double))] between two buffers of
    [double]. *)
Definition memcpy (dst src : list Number) (count : nat) : list Number :=
  list_inserts 0 (take count src) dst.

(** [get_scaling_parameters] has no assertion.  The outputs are the
    reference parameters [obj_scaling], [use_x_scaling], [use_g_scaling] and
    the buffers [x_scaling], [g_scaling]; [obj_scaling] is not assigned.  The
    count of the copy is [n] converted to [size_t]; a negative [n] is not
    modelled. *)
Definition get_scaling_parameters (s : IpoptSolver Number)
    (obj_scaling : Number) (use_x_scaling : bool) (n : Z)
    (x_scaling : list Number) (use_g_scaling : bool) (m : Z)
    (g_scaling : list Number)
  : bool * (Number * bool * list Number * bool * list Number) :=
  let use_x_scaling := true in
  let use_g_scaling := true in
  let x_scaling := memcpy x_scaling (argScales (problem s)) (Z.to_nat n) in
  let g_scaling :=
    for_loop m (λ i g_scaling,
      <[Z.to_nat i := vget (scales (problem s)) (Z.to_nat i)]> g_scaling)
      g_scaling in
  (true, (obj_scaling, use_x_scaling, x_scaling, use_g_scaling, g_scaling)).

Definition get_number_of_nonlinear_variables : Z := -1.

Definition get_list_of_nonlinear_variables (num_nonlin_vars : Z)
    (pos_nonlin_vars : list Z) : bool :=
  false.

(** A matrix reads the same at [(r, c)] and [(c, r)] for all indices below
    [n]. *)
Definition symmetric (n : nat) (h : list (list Number)) : Prop :=
  ∀ r c : nat, (r < n)%nat → (c < n)%nat → mget h r c = mget h c r.

End MoreQueries.

(** The error a stored result carries, if it is one. *)
Definition error_message {Number : Type} (r : result_t Number)
  : option string :=
  match r with
  | IsSolverError what => Some what
  | _ => None
  end.

(** * Properties *)

(** ** [Index] arithmetic *)

Lemma Index_wrap_id (z : Z) :
  Index.min ≤ z ≤ Index.max → Index.wrap z = z.
Proof.
  unfold Index.min, Index.max, Index.wrap. intros Hz.
  rewrite Z.mod_small by lia. lia.
Qed.

Lemma Index_wrap_range (z : Z) : Index.min ≤ Index.wrap z ≤ Index.max.
Proof.
  unfold Index.min, Index.max, Index.wrap.
  pose proof (Z.mod_pos_bound (z + 2 ^ 31) (2 ^ 32)). lia.
Qed.

Lemma Index_succ_id (z : Z) : 0 ≤ z < Index.max → Index.succ z = z + 1.
Proof.
  intros Hz. apply Index_wrap_id. unfold Index.min, Index.max in *. lia.
Qed.

Lemma Index_of_size_id (k : nat) :
  Z.of_nat k ≤ Index.max → Index.of_size k = Z.of_nat k.
Proof.
  intros Hk. apply Index_wrap_id. unfold Index.min. lia.
Qed.

(** ** Loops *)

Lemma for_loop_0 {S : Type} (body : Z → S → S) (st : S) :
  for_loop 0 body st = st.
Proof. reflexivity. Qed.

Lemma for_loop_S {S : Type} (k : nat) (body : Z → S → S) (st : S) :
  for_loop (Z.of_nat (Datatypes.S k)) body st
  = body (Z.of_nat k) (for_loop (Z.of_nat k) body st).
Proof.
  unfold for_loop. rewrite !Nat2Z.id, seq_S, fold_left_app. reflexivity.
Qed.

(** A loop whose body stores [f i] at position [i] of a buffer. *)
Lemma for_loop_write {A : Type} (f : Z → A) (body : Z → list A → list A)
    (bound : nat) (buf : list A) :
  (∀ i st, 0 ≤ i < Z.of_nat bound → body i st = <[Z.to_nat i := f i]> st) →
  length (for_loop (Z.of_nat bound) body buf) = length buf ∧
  ∀ k : nat,
    for_loop (Z.of_nat bound) body buf !! k
    = if decide (k < bound ∧ k < length buf)%nat
      then Some (f (Z.of_nat k)) else buf !! k.
Proof.
  induction bound as [|b IH]; intros Hbody.
  - split; [reflexivity|]. intros k. case_decide; [lia | reflexivity].
  - destruct IH as [IHlen IHget]; [intros; apply Hbody; lia|].
    rewrite for_loop_S, Hbody by lia. rewrite Nat2Z.id.
    split; [by rewrite length_insert|].
    intros k. destruct (decide (k = b)) as [->|Hne].
    + destruct (decide (b < length buf)%nat) as [Hlt|Hge].
      * rewrite list_lookup_insert_eq by lia.
        case_decide; [reflexivity | lia].
      * rewrite list_insert_ge by lia. rewrite IHget.
        repeat case_decide; try lia; reflexivity.
    + rewrite list_lookup_insert_ne by done. rewrite IHget.
      repeat case_decide; try lia; reflexivity.
Qed.

Section dense_loop_facts.
Context {S A : Type} (get : S → list A) (f : Z → Z → A).
Context (write : Z → Z → Z → S → S).
Hypothesis get_write : ∀ idx i j st,
  get (write idx i j st) = <[Z.to_nat idx := f i j]> (get st).

(** One row: [c] steps of the inner loop, entered with [idx = idx0]. *)
Lemma dense_row (i : Z) (c : nat) (idx0 : nat) (st : S) :
  Z.of_nat (idx0 + c) ≤ Index.max →
  let r := for_loop (Z.of_nat c)
             (λ j '(idx, st), (Index.succ idx, write idx i j st))
             (Z.of_nat idx0, st) in
  r.1 = Z.of_nat (idx0 + c) ∧
  length (get r.2) = length (get st) ∧
  ∀ k : nat,
    get r.2 !! k
    = if decide (idx0 ≤ k < idx0 + c ∧ k < length (get st))%nat
      then Some (f i (Z.of_nat (k - idx0))) else get st !! k.
Proof.
  induction c as [|c IH]; intros Hmax.
  - cbn zeta. change (Z.of_nat 0) with 0. rewrite for_loop_0. cbn [fst snd].
    split; [lia|]. split; [reflexivity|].
    intros k. case_decide; [lia | reflexivity].
  - destruct IH as (IHidx & IHlen & IHget); [lia|].
    cbn zeta. rewrite for_loop_S.
    destruct (for_loop (Z.of_nat c) _ _) as [idx st'] eqn:Hloop.
    cbn in IHidx, IHlen, IHget |- *. subst idx.
    rewrite Index_succ_id by lia. split; [lia|].
    rewrite get_write, Nat2Z.id. split; [by rewrite length_insert|].
    intros k. destruct (decide (k = idx0 + c)%nat) as [->|Hne].
    + destruct (decide (idx0 + c < length (get st))%nat) as [Hlt|Hge].
      * rewrite list_lookup_insert_eq by lia.
        case_decide; [|lia]. do 2 f_equal. lia.
      * rewrite list_insert_ge by lia. rewrite IHget.
        repeat case_decide; try lia; reflexivity.
    + rewrite list_lookup_insert_ne by done. rewrite IHget.
      repeat case_decide; try lia; reflexivity.
Qed.

(** All rows: position [k] below [rows * cols] holds [f (k / cols) (k mod
    cols)], the rest of the buffer is untouched, and [idx] ends at
    [rows * cols]. *)
Lemma dense_loop_spec (rows cols : nat) (st : S) :
  Z.of_nat (rows * cols) ≤ Index.max →
  let r := dense_loop (Z.of_nat rows) (Z.of_nat cols) write st in
  r.1 = Z.of_nat (rows * cols) ∧
  length (get r.2) = length (get st) ∧
  ∀ k : nat,
    get r.2 !! k
    = if decide (k < rows * cols ∧ k < length (get st))%nat
      then Some (f (Z.of_nat (k / cols)) (Z.of_nat (k mod cols)))
      else get st !! k.
Proof.
  unfold dense_loop. induction rows as [|r IH]; intros Hmax.
  - cbn zeta. change (Z.of_nat 0) with 0. rewrite for_loop_0. cbn [fst snd].
    split; [reflexivity|]. split; [reflexivity|].
    intros k. case_decide; [lia | reflexivity].
  - destruct IH as (IHidx & IHlen & IHget); [lia|].
    cbn zeta. rewrite for_loop_S.
    destruct (for_loop (Z.of_nat r) _ _) as [idx st'] eqn:Hloop.
    cbn in IHidx, IHlen, IHget. subst idx.
    destruct (dense_row (Z.of_nat r) cols (r * cols) st')
      as (Hidx & Hlen & Hget); [lia|].
    cbn zeta in Hidx, Hlen, Hget.
    split; [rewrite Hidx; f_equal; lia|].
    split; [congruence|].
    intros k. rewrite Hget, IHget, IHlen.
    destruct (decide (r * cols ≤ k < r * cols + cols)%nat) as [Hin|Hout].
    + assert (k / cols = r ∧ k mod cols = k - r * cols)%nat as [-> ->].
      { assert (cols ≠ 0)%nat by lia.
        pose proof (Nat.div_mod_eq k cols).
        pose proof (Nat.mod_upper_bound k cols).
        assert (k / cols = r)%nat by nia. split; [done | nia]. }
      repeat case_decide; try lia; reflexivity.
    + repeat case_decide; try lia; reflexivity.
Qed.

End dense_loop_facts.

(** ** Vectors and matrices *)

Section matrix_facts.
Context {Number : Type} `{NumberOps Number}.

Lemma vget_lookup (v : list Number) (i : nat) (a : Number) :
  v !! i = Some a → vget v i = a.
Proof. unfold vget. by intros ->. Qed.

Lemma mget_lookup (h : list (list Number)) (i j : nat) row (a : Number) :
  h !! i = Some row → row !! j = Some a → mget h i j = a.
Proof. unfold mget. intros -> Hj. by apply vget_lookup. Qed.

Lemma is_matrix_spec (r c : nat) (h : list (list Number)) :
  is_matrix r c h = true ↔
  length h = r ∧ ∀ i row, h !! i = Some row → length row = c.
Proof.
  unfold is_matrix. rewrite andb_true_iff, Nat.eqb_eq, forallb_forall.
  split; intros [Hlen Hrows]; (split; [done|]).
  - intros i row Hi. apply Nat.eqb_eq, Hrows.
    apply list_elem_of_In, list_elem_of_lookup. eauto.
  - intros row Hin. apply Nat.eqb_eq.
    apply list_elem_of_In, list_elem_of_lookup in Hin as [i Hi]. eauto.
Qed.

(** Inside an [r × c] matrix every entry is stored. *)
Lemma is_matrix_entry (r c : nat) (h : list (list Number)) (i j : nat) :
  is_matrix r c h = true → (i < r)%nat → (j < c)%nat →
  ∃ row, h !! i = Some row ∧ row !! j = Some (mget h i j).
Proof.
  intros [Hlen Hrows]%is_matrix_spec Hi Hj.
  destruct (lookup_lt_is_Some_2 h i) as [row Hrow]; [lia|].
  destruct (lookup_lt_is_Some_2 row j) as [a Ha].
  { rewrite (Hrows _ _ Hrow). lia. }
  exists row. split; [done|]. by rewrite (mget_lookup _ _ _ _ _ Hrow Ha).
Qed.

Lemma scalar_times_is_matrix (r c : nat) (t : Number) e :
  is_matrix r c e = true → is_matrix r c (scalar_times t e) = true.
Proof.
  rewrite !is_matrix_spec. unfold scalar_times. intros [Hlen Hrows].
  split; [by rewrite length_fmap|].
  intros i row. rewrite list_lookup_fmap.
  destruct (e !! i) as [row'|] eqn:Hi; [|done].
  intros [= <-]. rewrite length_fmap. eauto.
Qed.

Lemma mget_scalar_times (r c : nat) (t : Number) e (i j : nat) :
  is_matrix r c e = true → (i < r)%nat → (j < c)%nat →
  mget (scalar_times t e) i j = mul t (mget e i j).
Proof.
  intros He Hi Hj.
  destruct (is_matrix_entry r c e i j) as (row & Hrow & Hentry); [done..|].
  apply (mget_lookup _ _ _ (mul t <$> row)).
  - unfold scalar_times. by rewrite list_lookup_fmap, Hrow.
  - by rewrite list_lookup_fmap, Hentry.
Qed.

Lemma plus_assign_is_matrix (r c : nat) h e :
  is_matrix r c h = true → is_matrix r c e = true →
  is_matrix r c (plus_assign h e) = true.
Proof.
  rewrite !is_matrix_spec. unfold plus_assign.
  intros [Hlen Hrows] [Hlen' Hrows'].
  split; [rewrite length_zip_with; lia|].
  intros i row. rewrite lookup_zip_with.
  destruct (h !! i) as [a|] eqn:Ha; [|done].
  destruct (e !! i) as [b|] eqn:Hb; [|done].
  cbn. intros [= <-]. rewrite length_zip_with.
  rewrite (Hrows _ _ Ha), (Hrows' _ _ Hb). lia.
Qed.

Lemma mget_plus_assign (r c : nat) h e (i j : nat) :
  is_matrix r c h = true → is_matrix r c e = true →
  (i < r)%nat → (j < c)%nat →
  mget (plus_assign h e) i j = add (mget h i j) (mget e i j).
Proof.
  intros Hh He Hi Hj.
  destruct (is_matrix_entry r c h i j) as (a & Ha & Haj); [done..|].
  destruct (is_matrix_entry r c e i j) as (b & Hb & Hbj); [done..|].
  apply (mget_lookup _ _ _ (zip_with add a b)).
  - unfold plus_assign. by rewrite lookup_zip_with, Ha, Hb.
  - by rewrite lookup_zip_with, Haj, Hbj.
Qed.

Lemma length_array_to_vector (dst src : list Number) :
  length (array_to_vector dst src) = length dst.
Proof. unfold array_to_vector. apply length_imap. Qed.

Lemma lookup_array_to_vector (dst src : list Number) (i : nat) :
  (i < length dst)%nat → array_to_vector dst src !! i = Some (vget src i).
Proof.
  intros Hi. unfold array_to_vector. rewrite list_lookup_imap.
  by destruct (lookup_lt_is_Some_2 dst i Hi) as [a ->].
Qed.

Lemma length_vector (n : nat) : length (vector n) = n.
Proof. apply length_replicate. Qed.

Lemma length_resize (n : nat) (v : list Number) : length (resize n v) = n.
Proof.
  unfold resize. rewrite length_app, length_take, length_replicate. lia.
Qed.

Lemma length_vector_to_array (dst src : list Number) :
  length (vector_to_array dst src) = length dst.
Proof. apply length_inserts. Qed.

Lemma lookup_vector_to_array (dst src : list Number) (i : nat) :
  (i < length src)%nat → (i < length dst)%nat →
  vector_to_array dst src !! i = src !! i.
Proof.
  intros Hs Hd. unfold vector_to_array.
  rewrite list_lookup_inserts by lia. f_equal. lia.
Qed.

End matrix_facts.

(** ** The accumulation of [compute_hessian] *)

Section compute_hessian_facts.
Context {Number : Type} `{NumberOps Number}.

(** The loop over a suffix [l] of the constraints, entered with the counter
    at the length of the prefix, follows the reference accumulation over the
    indices of [l]. *)
Lemma compute_hessian_loop (n : nat) (x lambda : list Number)
    (cs : list (TwiceDerivableFunction.t Number)) (r c : nat) :
  (r < n)%nat → (c < n)%nat → Z.of_nat (length cs) ≤ Index.max →
  ∀ l pre h h' i',
    cs = pre ++ l →
    is_matrix n n h = true →
    forallb (λ g, is_matrix n n (TwiceDerivableFunction.hessian g x 0)) l
      = true →
    fold_left (λ '(h, i) it,
        (plus_assign h
           (scalar_times (vget lambda (Z.to_nat i))
              (TwiceDerivableFunction.hessian it x 0)),
         Index.succ i)) l (h, Z.of_nat (length pre)) = (h', i') →
    is_matrix n n h' = true ∧
    mget h' r c
    = fold_left (λ acc i,
          match cs !! i with
          | Some g_i =>
              add acc
                (mul (vget lambda i)
                     (mget (TwiceDerivableFunction.hessian g_i x 0) r c))
          | None => acc
          end) (seq (length pre) (length l)) (mget h r c).
Proof.
  intros Hr Hc Hmax. induction l as [|g l IH]; intros pre h h' i' Hcs Hh Hl.
  - cbn. intros [= <- <-]. done.
  - cbn [fold_left length seq]. cbn in Hl. apply andb_true_iff in Hl as [Hg Hl].
    assert (length cs = length pre + Datatypes.S (length l))%nat as Hlen.
    { rewrite Hcs, length_app. reflexivity. }
    rewrite Index_succ_id by lia. rewrite Nat2Z.id.
    replace (Z.of_nat (length pre) + 1)
      with (Z.of_nat (length (pre ++ [g]))) by (rewrite length_app; cbn; lia).
    intros Hfold. apply IH in Hfold as [Hh' Hget].
    + split; [done|]. rewrite Hget, length_app. cbn [length].
      replace (length pre + 1)%nat with (Datatypes.S (length pre)) by lia.
      f_equal.
      assert (cs !! length pre = Some g) as ->.
      { rewrite Hcs. by rewrite list_lookup_middle. }
      rewrite (mget_plus_assign n n), (mget_scalar_times n n); try done.
      by apply scalar_times_is_matrix.
    + by rewrite Hcs, <- app_assoc.
    + apply plus_assign_is_matrix; [done|]. by apply scalar_times_is_matrix.
    + done.
Qed.

Lemma compute_hessian_entry (s : IpoptSolver Number) h0
    (x : list Number) (obj_factor : Number) (lambda : list Number)
    (r c : nat) :
  let n := TwiceDerivableFunction.n (function (problem s)) in
  (r < n)%nat → (c < n)%nat →
  Z.of_nat (length (constraints (problem s))) ≤ Index.max →
  hessians_dense s x = true →
  is_matrix n n (compute_hessian s h0 x obj_factor lambda) = true ∧
  mget (compute_hessian s h0 x obj_factor lambda) r c
  = lagrangian_hessian_entry s x obj_factor lambda r c.
Proof.
  intros n Hr Hc Hmax [Hf Hcs]%andb_true_iff.
  unfold compute_hessian, lagrangian_hessian_entry.
  destruct (fold_left _ _ _) as [h' i'] eqn:Hfold.
  apply (compute_hessian_loop n x lambda (constraints (problem s)) r c
           Hr Hc Hmax _ []) in Hfold as [Hh' Hget].
  - split; [done|]. rewrite Hget. cbn [length]. f_equal.
    by apply (mget_scalar_times n n).
  - done.
  - by apply scalar_times_is_matrix.
  - done.
Qed.

End compute_hessian_facts.

(** ** Dense enumerations *)

Section dense_facts.
Context {Number : Type} `{NumberOps Number}.

Lemma dims_agree_asserts (s : IpoptSolver Number) (n m : Z) :
  dims_agree s n m → assert_n s n = Some tt ∧ assert_m s m = Some tt.
Proof.
  intros [Hn Hm]. unfold assert_n, assert_m, assert.
  by rewrite (proj2 (Z.eqb_eq _ _) Hn), (proj2 (Z.eqb_eq _ _) Hm).
Qed.

Lemma row_major_position (cols i j : nat) :
  (j < cols)%nat →
  ((i * cols + j) / cols = i ∧ (i * cols + j) mod cols = j)%nat.
Proof.
  intros Hj. split.
  - symmetry. apply (Nat.div_unique _ _ _ j); lia.
  - symmetry. apply (Nat.mod_unique _ _ i); lia.
Qed.

(** The structure phase: both index buffers after the two nested loops. *)
Lemma structure_phase (rows cols : nat) (iRow jCol : list Z) :
  Z.of_nat (rows * cols) ≤ Index.max →
  ∃ iRow' jCol',
    dense_loop (Z.of_nat rows) (Z.of_nat cols)
      (λ idx i j '(iRow, jCol),
         (<[Z.to_nat idx := i]> iRow, <[Z.to_nat idx := j]> jCol))
      (iRow, jCol)
    = (Z.of_nat (rows * cols), (iRow', jCol')) ∧
    length iRow' = length iRow ∧ length jCol' = length jCol ∧
    ∀ k : nat,
      (k < rows * cols)%nat →
      ((k < length iRow)%nat → iRow' !! k = Some (Z.of_nat (k / cols))) ∧
      ((k < length jCol)%nat → jCol' !! k = Some (Z.of_nat (k mod cols))).
Proof.
  intros Hmax.
  set (write := λ (idx i j : Z) '(iRow, jCol),
         (<[Z.to_nat idx := i]> iRow, <[Z.to_nat idx := j]> (jCol : list Z))).
  destruct (dense_loop_spec fst (λ i _, i) write) with
    (rows := rows) (cols := cols) (st := (iRow, jCol))
    as (Hidx & Hlen1 & Hget1); [by intros idx i j [??] | done |].
  destruct (dense_loop_spec snd (λ _ j, j) write) with
    (rows := rows) (cols := cols) (st := (iRow, jCol))
    as (_ & Hlen2 & Hget2); [by intros idx i j [??] | done |].
  cbn zeta in *.
  destruct (dense_loop _ _ write _) as [idx [iRow' jCol']].
  cbn [fst snd] in *. subst idx.
  exists iRow', jCol'. repeat split; try done.
  - intros Hk. rewrite Hget1. case_decide; [done | lia].
  - intros Hk. rewrite Hget2. case_decide; [done | lia].
Qed.

(** The value phase: the value buffer after the two nested loops over a
    matrix [h]. *)
Lemma value_phase (rows cols : nat) (h : list (list Number))
    (values : list Number) :
  Z.of_nat (rows * cols) ≤ Index.max →
  ∃ values',
    dense_loop (Z.of_nat rows) (Z.of_nat cols)
      (λ idx i j values,
         <[Z.to_nat idx := mget h (Z.to_nat i) (Z.to_nat j)]> values) values
    = (Z.of_nat (rows * cols), values') ∧
    length values' = length values ∧
    ∀ k : nat,
      (k < rows * cols)%nat → (k < length values)%nat →
      values' !! k = Some (mget h (k / cols) (k mod cols)).
Proof.
  intros Hmax.
  destruct (dense_loop_spec id
              (λ i j, mget h (Z.to_nat i) (Z.to_nat j))
              (λ idx i j values,
                 <[Z.to_nat idx := mget h (Z.to_nat i) (Z.to_nat j)]> values))
    with (rows := rows) (cols := cols) (st := values)
    as (Hidx & Hlen & Hget); [done | done |].
  cbn zeta in *. destruct (dense_loop _ _ _ _) as [idx values'].
  cbn [fst snd] in *. subst idx. exists values'.
  repeat split; try done.
  intros k Hk Hk'. unfold id in Hget. rewrite Hget, !Nat2Z.id.
  case_decide; [done | lia].
Qed.

(** Both phases over buffers of [rows * cols] entries are aligned. *)
Lemma phases_aligned (rows cols : nat) (h : list (list Number))
    (iRow jCol iRow' jCol' : list Z) (values values' : list Number) idx idx' :
  Z.of_nat (rows * cols) ≤ Index.max →
  length iRow = (rows * cols)%nat → length jCol = (rows * cols)%nat →
  length values = (rows * cols)%nat →
  dense_loop (Z.of_nat rows) (Z.of_nat cols)
    (λ idx i j '(iRow, jCol),
       (<[Z.to_nat idx := i]> iRow, <[Z.to_nat idx := j]> jCol))
    (iRow, jCol) = (idx, (iRow', jCol')) →
  dense_loop (Z.of_nat rows) (Z.of_nat cols)
    (λ idx i j values,
       <[Z.to_nat idx := mget h (Z.to_nat i) (Z.to_nat j)]> values) values
    = (idx', values') →
  aligned (Z.of_nat rows) (Z.of_nat cols) iRow' jCol' values' (mget h).
Proof.
  intros Hmax HiRow HjCol Hvalues Hs Hv k Hk.
  destruct (structure_phase rows cols iRow jCol Hmax)
    as (iR & jC & Hs' & _ & _ & Hpos).
  destruct (value_phase rows cols h values Hmax) as (vs & Hv' & _ & Hval).
  rewrite Hs' in Hs. rewrite Hv' in Hv.
  injection Hs as <- <- <-. injection Hv as <- <-.
  assert (k < rows * cols)%nat as Hk' by lia.
  assert (cols ≠ 0)%nat by lia.
  destruct (Hpos k Hk') as [Hi Hj].
  pose proof (Nat.div_mod_eq k cols).
  pose proof (Nat.mod_upper_bound k cols).
  assert (k / cols < rows)%nat by (apply Nat.Div0.div_lt_upper_bound; lia).
  exists (Z.of_nat (k / cols)), (Z.of_nat (k mod cols)).
  rewrite Hi, Hj, Hval, !Nat2Z.id by lia.
  repeat split; try done; try lia.
Qed.

End dense_facts.

(** ** The Lagrangian Hessian *)

Section claims_values.
Context {Number : Type} `{NumberOps Number}.

(** C1: in its value phase [eval_h] returns the success signal and writes, at
    the row-major position [r * n + c] of the value buffer, the entry
    [(r, c)] of the reference sum: the objective factor times the entry of
    the objective's Hessian at [x], to which the products of [lambda[i]] and
    the entry of the Hessian of constraint [i] are added one after the other
    for [i = 0 .. m-1].  No law of the scalar operations is used, so the
    order of accumulation is the stated one. *)
Theorem eval_h_lagrangian_hessian (s : IpoptSolver Number) (n m : Z)
    (x : list Number) (new_x : bool) (obj_factor : Number)
    (lambda : list Number) (new_lambda : bool) (nele_hess : Z)
    (iRow jCol : list Z) (values : list Number) :
  dims_agree s n m →
  m ≤ Index.max → n * n ≤ Index.max →
  hessians_dense s (array_to_vector (vector (Z.to_nat n)) x) = true →
  length values = Z.to_nat (n * n) →
  ∃ values',
    eval_h s n x new_x obj_factor m lambda new_lambda nele_hess iRow jCol
      (Some values) = Some (true, (iRow, jCol, Some values')) ∧
    length values' = length values ∧
    ∀ r c : nat, Z.of_nat r < n → Z.of_nat c < n →
      values' !! (r * Z.to_nat n + c)%nat
      = Some (lagrangian_hessian_entry s
                (array_to_vector (vector (Z.to_nat n)) x)
                obj_factor lambda r c).
Proof.
  intros Hdims Hm Hnn Hdense Hlen.
  destruct (dims_agree_asserts s n m Hdims) as [Han Ham].
  destruct Hdims as [Hn Hm'].
  set (fn := TwiceDerivableFunction.n (function (problem s))) in *.
  unfold eval_h. rewrite Han, Ham. cbn [mbind option_bind].
  subst n. rewrite Nat2Z.id in *.
  set (x_ := array_to_vector (vector fn) x) in *.
  set (h := compute_hessian s _ x_ obj_factor lambda).
  destruct (value_phase fn fn h values) as (values' & Hloop & Hlen' & Hget);
    [lia|].
  fold fn. rewrite Hloop. exists values'. split; [done|]. split; [done|].
  intros r c Hr Hc.
  destruct (row_major_position fn r c) as [Hdiv Hmod]; [lia|].
  rewrite Hget, Hdiv, Hmod by nia. f_equal.
  apply compute_hessian_entry; try done; lia.
Qed.

(** C3: over buffers of the dense size, the structure phase and the value
    phase of [eval_jac_g] are aligned on the [m × n] Jacobian, and those of
    [eval_h] on the [n × n] Hessian: position [k] of the index buffers holds
    the pair [(i, j)] with [k = i * cols + j], and position [k] of the value
    buffer holds the entry [(i, j)] of the matrix the value phase computed. *)
Theorem structure_and_value_phases_aligned (s : IpoptSolver Number)
    (n m : Z) (x : list Number) (new_x : bool)
    (obj_factor : Number) (lambda : list Number) (new_lambda : bool)
    (iRow jCol iRowH jColH iRowV jColV : list Z)
    (values valuesH : list Number) :
  dims_agree s n m →
  m * n ≤ Index.max → n * n ≤ Index.max →
  length iRow = Z.to_nat (m * n) → length jCol = Z.to_nat (m * n) →
  length values = Z.to_nat (m * n) →
  length iRowH = Z.to_nat (n * n) → length jColH = Z.to_nat (n * n) →
  length valuesH = Z.to_nat (n * n) →
  let x_ := array_to_vector (vector (Z.to_nat n)) x in
  let jac :=
    jacobian_from_gradients (matrix (Z.to_nat m) (Z.to_nat n))
      (constraints (problem s)) x_ in
  let h :=
    compute_hessian s (matrix (Z.to_nat n) (Z.to_nat n)) x_ obj_factor lambda in
  (∃ iRow' jCol' values',
      eval_jac_g s n x new_x m (m * n) iRow jCol None
        = Some (true, (iRow', jCol', None)) ∧
      eval_jac_g s n x new_x m (m * n) iRowV jColV (Some values)
        = Some (true, (iRowV, jColV, Some values')) ∧
      aligned m n iRow' jCol' values' (mget jac)) ∧
  (∃ iRow' jCol' values',
      eval_h s n x new_x obj_factor m lambda new_lambda (n * n)
        iRowH jColH None
        = Some (true, (iRow', jCol', None)) ∧
      eval_h s n x new_x obj_factor m lambda new_lambda (n * n)
        iRowV jColV (Some valuesH)
        = Some (true, (iRowV, jColV, Some values')) ∧
      aligned n n iRow' jCol' values' (mget h)).
Proof.
  intros Hdims Hmn Hnn HiRow HjCol Hvalues HiRowH HjColH HvaluesH.
  destruct (dims_agree_asserts s n m Hdims) as [Han Ham].
  destruct Hdims as [Hn Hm].
  set (fn := TwiceDerivableFunction.n (function (problem s))) in *.
  set (cm := length (constraints (problem s))) in *.
  unfold eval_jac_g, eval_h. rewrite Han, Ham. cbn [mbind option_bind].
  fold fn cm. subst n m. rewrite !Nat2Z.id.
  rewrite <- !Nat2Z.inj_mul, !Nat2Z.id in *.
  cbn zeta. split.
  - destruct (structure_phase cm fn iRow jCol Hmn)
      as (iRow' & jCol' & Hs & _).
    destruct (value_phase cm fn
                (jacobian_from_gradients (matrix cm fn)
                   (constraints (problem s))
                   (array_to_vector (vector fn) x)) values Hmn)
      as (values' & Hv & _).
    exists iRow', jCol', values'.
    pose proof (phases_aligned cm fn _ _ _ _ _ _ _ _ _
                  Hmn HiRow HjCol Hvalues Hs Hv) as Hal.
    rewrite Hs, Hv. done.
  - destruct (structure_phase fn fn iRowH jColH Hnn)
      as (iRow' & jCol' & Hs & _).
    destruct (value_phase fn fn
                (compute_hessian s (matrix fn fn)
                   (array_to_vector (vector fn) x) obj_factor lambda)
                valuesH Hnn)
      as (values' & Hv & _).
    exists iRow', jCol', values'.
    pose proof (phases_aligned fn fn _ _ _ _ _ _ _ _ _
                  Hnn HiRowH HjColH HvaluesH Hs Hv) as Hal.
    rewrite Hs, Hv. unfold assert. rewrite Z.eqb_refl. done.
Qed.

End claims_values.

(** ** Structural queries *)

Section claims_structure.
Context {Number : Type} `{NumberOps Number}.

Lemma Index_mul_of_size (a b : nat) :
  Z.of_nat a * Z.of_nat b ≤ Index.max →
  Index.mul (Index.of_size a) (Index.of_size b) = Z.of_nat a * Z.of_nat b.
Proof.
  intros Hab. unfold Index.mul.
  destruct (decide (a = 0)%nat) as [->|Ha].
  { change (Index.of_size 0) with 0. reflexivity. }
  destruct (decide (b = 0)%nat) as [->|Hb].
  { change (Index.of_size 0) with 0. by rewrite !Z.mul_0_r. }
  rewrite !Index_of_size_id by nia.
  apply Index_wrap_id. unfold Index.min. nia.
Qed.

(** C4 (amended): when the dense counts [n * m] and [n * n] of the problem
    are values of [Index], that is at most [2^31 - 1], [get_nlp_info] reports
    exactly [n * m] Jacobian entries and [n * n] Hessian entries. *)
Theorem get_nlp_info_dense_counts (s : IpoptSolver Number) :
  let n := Z.of_nat (TwiceDerivableFunction.n (function (problem s))) in
  let m := Z.of_nat (length (constraints (problem s))) in
  n * m ≤ Index.max → n * n ≤ Index.max →
  reports_dense_counts s.
Proof.
  intros n m Hnm Hnn. unfold reports_dense_counts, get_nlp_info.
  split; by apply Index_mul_of_size.
Qed.

(** C5: on a problem without a starting point, and with the multipliers of
    the constraints not requested, [get_starting_point] stores the error
    "Ipopt method needs a starting point." and returns [false] when [x] is
    requested; when [x] is not requested it returns [true] and leaves the
    solver and the buffer [x] as they were. *)
Theorem get_starting_point_missing (s : IpoptSolver Number) (n m : Z)
    (init_x : bool) (x : list Number) (init_z : bool)
    (z_L z_U lambda : list Number) :
  dims_agree s n m →
  startingPoint (problem s) = None →
  ∃ z_L' z_U',
    get_starting_point s n init_x x init_z z_L z_U m false lambda
    = if init_x
      then Some (false, (x, z_L', z_U'),
                 set_result s
                   (IsSolverError "Ipopt method needs a starting point."))
      else Some (true, (x, z_L', z_U'), s).
Proof.
  intros Hdims Hstart.
  destruct (dims_agree_asserts s n m Hdims) as [Han Ham].
  unfold get_starting_point. rewrite Han, Ham, Hstart.
  cbn [mbind option_bind assert eqb].
  destruct (if init_z then _ else _) as [z_L' z_U'].
  exists z_L', z_U'. by destruct init_x.
Qed.

(** C7: over buffers of [n] and [m] entries, both linearity queries return
    the success signal; every entry of the variables' buffer is [LINEAR]
    exactly when the static type of the objective is [LinearFunction] and
    [NON_LINEAR] otherwise, and every entry of the constraints' buffer is
    [LINEAR] exactly when the static type of a constraint is
    [LinearFunction] and [NON_LINEAR] otherwise. *)
Theorem linearity_follows_static_type (s : IpoptSolver Number) (n m : Z)
    (var_types const_types : list LinearityType) :
  dims_agree s n m →
  length var_types = Z.to_nat n → length const_types = Z.to_nat m →
  ∃ var_types' const_types',
    get_variables_linearity s n var_types = Some (true, var_types') ∧
    get_function_linearity s m const_types = Some (true, const_types') ∧
    (∀ i : nat, Z.of_nat i < n →
       var_types' !! i
       = Some (if decide (F (problem s) = LinearFunction_class)
               then LINEAR else NON_LINEAR)) ∧
    (∀ i : nat, Z.of_nat i < m →
       const_types' !! i
       = Some (if decide (CF (problem s) = LinearFunction_class)
               then LINEAR else NON_LINEAR)).
Proof.
  intros Hdims Hvar Hconst.
  destruct (dims_agree_asserts s n m Hdims) as [Han Ham].
  destruct Hdims as [Hn Hm].
  unfold get_variables_linearity, get_function_linearity.
  rewrite Han, Ham. cbn [mbind option_bind].
  assert (∀ c : function_class,
    (if derives_from c LinearFunction_class then LINEAR else NON_LINEAR)
    = if decide (c = LinearFunction_class) then LINEAR else NON_LINEAR)
    as Htag by (by intros []).
  eexists _, _. split; [reflexivity|]. split; [reflexivity|].
  subst n m. rewrite Nat2Z.id in *. split.
  - intros i Hi.
    edestruct (for_loop_write
      (λ _ : Z, cfsqp_tag (F (problem s)) (function (problem s))))
      as [_ Hget]; [intros; reflexivity|].
    rewrite Hget. case_decide; [|lia]. unfold cfsqp_tag. by rewrite Htag.
  - intros i Hi.
    edestruct (for_loop_write
      (λ _ : Z, if derives_from (CF (problem s)) LinearFunction_class
                then LINEAR else NON_LINEAR))
      as [_ Hget]; [|rewrite Hget].
    + intros k st Hk. cbn beta.
      destruct (lookup_lt_is_Some_2 (constraints (problem s)) (Z.to_nat k))
        as [c ->]; [lia|]. reflexivity.
    + case_decide; [|lia]. by rewrite Htag.
Qed.

End claims_structure.

(** ** Value queries *)

Section claims_eval.
Context {Number : Type} `{NumberOps Number}.

(** The loop of [eval_g] over a suffix [l] of the constraints. *)
Lemma eval_g_loop (x : list Number)
    (cs : list (TwiceDerivableFunction.t Number)) :
  Z.of_nat (length cs) ≤ Index.max →
  ∀ l pre g_ g' i',
    cs = pre ++ l →
    fold_left (λ '(g_, i) it,
        (<[Z.to_nat i := vget (TwiceDerivableFunction.call it x) 0]> g_,
         Index.succ i)) l (g_, Z.of_nat (length pre)) = (g', i') →
    length g' = length g_ ∧
    ∀ k : nat,
      g' !! k
      = if decide (length pre ≤ k < length cs ∧ k < length g_)%nat
        then (λ c, vget (TwiceDerivableFunction.call c x) 0) <$> cs !! k
        else g_ !! k.
Proof.
  intros Hmax. induction l as [|c l IH]; intros pre g_ g' i' Hcs.
  - cbn. intros [= <- <-]. split; [done|]. intros k.
    rewrite Hcs, app_nil_r. case_decide; [lia | done].
  - cbn [fold_left].
    assert (length cs = length pre + Datatypes.S (length l))%nat as Hlen.
    { rewrite Hcs, length_app. reflexivity. }
    rewrite Index_succ_id by lia. rewrite Nat2Z.id.
    replace (Z.of_nat (length pre) + 1)
      with (Z.of_nat (length (pre ++ [c]))) by (rewrite length_app; cbn; lia).
    intros Hfold. apply IH in Hfold as [Hlen' Hget].
    2: { by rewrite Hcs, <- app_assoc. }
    rewrite length_insert in Hlen', Hget. split; [done|].
    intros k. rewrite Hget, length_app. cbn [length].
    destruct (decide (k = length pre)) as [->|Hne].
    + assert (cs !! length pre = Some c) as Hc.
      { rewrite Hcs. by rewrite list_lookup_middle. }
      destruct (decide (length pre < length g_)%nat).
      * rewrite list_lookup_insert_eq by done. rewrite Hc. cbn.
        repeat case_decide; try lia; reflexivity.
      * rewrite list_insert_ge by lia.
        repeat case_decide; try lia; reflexivity.
    + rewrite list_lookup_insert_ne by done.
      repeat case_decide; try lia; reflexivity.
Qed.

(** C8: over a buffer of [m] entries, [eval_g] returns the success signal
    and position [i] of the buffer holds the first output component of the
    [i]-th constraint of the problem, in the declared order, evaluated at the
    point read from [x]. *)
Theorem eval_g_components (s : IpoptSolver Number) (n m : Z)
    (x : list Number) (new_x : bool) (g : list Number) :
  dims_agree s n m →
  m ≤ Index.max →
  length g = Z.to_nat m →
  ∃ g',
    eval_g s n x new_x m g = Some (true, g') ∧
    length g' = Z.to_nat m ∧
    ∀ (i : nat) (c : TwiceDerivableFunction.t Number),
      constraints (problem s) !! i = Some c →
      g' !! i
      = Some (vget (TwiceDerivableFunction.call c
                      (array_to_vector (vector (Z.to_nat n)) x)) 0).
Proof.
  intros Hdims Hmax Hg.
  destruct (dims_agree_asserts s n m Hdims) as [Han Ham].
  destruct Hdims as [Hn Hm].
  unfold eval_g. rewrite Han, Ham. cbn [mbind option_bind].
  destruct (fold_left _ _ _) as [g_ i'] eqn:Hfold.
  apply (eval_g_loop _ (constraints (problem s)) ltac:(lia) _ []) in Hfold
    as [Hlen Hget]; [|done].
  rewrite length_vector in Hlen, Hget.
  eexists. split; [reflexivity|].
  rewrite length_vector_to_array. split; [done|].
  intros i c Hc.
  assert (i < length (constraints (problem s)))%nat as Hi.
  { apply lookup_lt_is_Some_1. eauto. }
  rewrite lookup_vector_to_array by lia.
  rewrite Hget, Hc. cbn [length]. case_decide; [done | lia].
Qed.

(** C10: none of the value callbacks and not the intermediate callback ever
    returns [false]; and when the counts passed by the engine are those of
    the problem (and, for the structure phase of [eval_h], the element count
    is [n * n], a value of [Index]) each of them returns [true]. *)
Theorem callbacks_return_true (s : IpoptSolver Number) (n m : Z)
    (x : list Number) (new_x : bool) (grad_f g : list Number)
    (nele_jac nele_hess : Z) (iRow jCol : list Z)
    (values : option (list Number))
    (obj_factor : Number) (lambda : list Number) (new_lambda : bool)
    (mode : AlgorithmMode) (iter : Z)
    (obj_value inf_pr inf_du mu d_norm regularization_size alpha_du alpha_pr
      : Number) (ls_trials : Z) :
  ((∀ b out, eval_f s n x new_x = Some (b, out) → b = true) ∧
   (∀ b out, eval_grad_f s n x new_x grad_f = Some (b, out) → b = true) ∧
   (∀ b out, eval_g s n x new_x m g = Some (b, out) → b = true) ∧
   (∀ b out,
      eval_jac_g s n x new_x m nele_jac iRow jCol values = Some (b, out) →
      b = true) ∧
   (∀ b out,
      eval_h s n x new_x obj_factor m lambda new_lambda nele_hess
        iRow jCol values = Some (b, out) → b = true) ∧
   intermediate_callback mode iter obj_value inf_pr inf_du mu d_norm
     regularization_size alpha_du alpha_pr ls_trials = true) ∧
  (dims_agree s n m →
   n * n ≤ Index.max → nele_hess = n * n →
   (∃ out, eval_f s n x new_x = Some (true, out)) ∧
   (∃ out, eval_grad_f s n x new_x grad_f = Some (true, out)) ∧
   (∃ out, eval_g s n x new_x m g = Some (true, out)) ∧
   (∃ out,
      eval_jac_g s n x new_x m nele_jac iRow jCol values = Some (true, out)) ∧
   (∃ out,
      eval_h s n x new_x obj_factor m lambda new_lambda nele_hess
        iRow jCol values = Some (true, out))).
Proof.
  split.
  - unfold eval_f, eval_grad_f, eval_g, eval_jac_g, eval_h.
    destruct (assert_n s n) as [[]|]; cbn [mbind option_bind];
      [|by repeat split].
    destruct (assert_m s m) as [[]|]; cbn [mbind option_bind].
    2: { repeat split; try done; by intros ?? [= <- _]. }
    repeat split.
    + by intros ?? [= <- _].
    + by intros ?? [= <- _].
    + destruct (fold_left _ _ _). by intros ?? [= <- _].
    + destruct values.
      * destruct (dense_loop _ _ _ _). by intros ?? [= <- _].
      * destruct (dense_loop _ _ _ _) as [? [??]]. by intros ?? [= <- _].
    + destruct values.
      * destruct (dense_loop _ _ _ _). by intros ?? [= <- _].
      * destruct (dense_loop _ _ _ _) as [? [??]].
        destruct (assert _) as [[]|]; cbn [mbind option_bind]; [|done].
        by intros ?? [= <- _].
  - intros Hdims Hnn ->.
    destruct (dims_agree_asserts s n m Hdims) as [Han Ham].
    destruct Hdims as [Hn Hm].
    unfold eval_f, eval_grad_f, eval_g, eval_jac_g, eval_h.
    rewrite Han, Ham. cbn [mbind option_bind].
    repeat split.
    + eauto.
    + eauto.
    + destruct (fold_left _ _ _). eauto.
    + destruct values.
      * destruct (dense_loop _ _ _ _). eauto.
      * destruct (dense_loop _ _ _ _) as [? [??]]. eauto.
    + destruct values.
      * destruct (dense_loop _ _ _ _). eauto.
      * subst n. rewrite <- Nat2Z.inj_mul in *.
        destruct (structure_phase _ _ iRow jCol Hnn)
          as (iRow' & jCol' & -> & _).
        unfold assert. rewrite Z.eqb_refl. cbn. eauto.
Qed.

End claims_eval.

(** ** The outcome translator *)

Section claims_outcome.
Context {Number : Type} `{NumberOps Number}.
Variable Result_lambda : nat → nat → list Number.

(** C2 (amended): for every termination code other than
    [USER_REQUESTED_STOP], [finalize_solution] stores one result, of the
    variant the table gives for the code: a [Result] for [SUCCESS] and
    [FEASIBLE_POINT_FOUND], a [ResultWithWarnings] for
    [STOP_AT_ACCEPTABLE_POINT], a [SolverError] for the others; for
    [MAXITER_EXCEEDED] it is the error "Max iteration exceeded.", which
    carries no point.  On [USER_REQUESTED_STOP] the assertion fails and
    nothing is stored.  Every code is covered by one of these cases. *)
Theorem finalize_solution_table (s : IpoptSolver Number)
    (status : SolverReturn) (n m : Z) (x z_L z_U g lambda : list Number)
    (obj_value : Number) :
  dims_agree s n m →
  let outcome :=
    finalize_solution Result_lambda s status n x z_L z_U m g lambda obj_value
  in
  match termination_family status with
  | Family_Unreachable =>
      status = USER_REQUESTED_STOP ∧ outcome = None
  | family =>
      ∃ r, outcome = Some (set_result s r) ∧ result_family r = Some family ∧
           ∀ r', outcome = Some (set_result s r') → r' = r
  end ∧
  (status = MAXITER_EXCEEDED →
   outcome = Some (set_result s (IsSolverError "Max iteration exceeded."))).
Proof.
  intros Hdims.
  destruct (dims_agree_asserts s n m Hdims) as [Han Ham].
  unfold finalize_solution. rewrite Han, Ham. cbn [mbind option_bind].
  destruct status; cbn; (split; [|by intros]); try done;
    (eexists; split; [reflexivity|]; split; [reflexivity|]);
    by intros r' [= <-].
Qed.

(** The result stored on [STOP_AT_ACCEPTABLE_POINT]: the warning, the point
    of [n] entries read from [x], the objective value, and a multiplier
    vector that still has the size the constructor of the result gave it;
    neither [m] nor the size of [lambda] enters. *)
Lemma acceptable_point_result (s : IpoptSolver Number) (n m : Z)
    (x z_L z_U g lambda : list Number) (obj_value : Number) :
  dims_agree s n m →
  ∃ res,
    finalize_solution Result_lambda s STOP_AT_ACCEPTABLE_POINT
      n x z_L z_U m g lambda obj_value
    = Some (set_result s (IsResultWithWarnings res ["Acceptable point."])) ∧
    length (Result.x res) = Z.to_nat n ∧
    (∀ i : nat, Z.of_nat i < n → Result.x res !! i = Some (vget x i)) ∧
    Result.value res = [obj_value] ∧
    length (Result.lambda res) = length (Result_lambda (Z.to_nat n) 1).
Proof.
  intros Hdims.
  destruct (dims_agree_asserts s n m Hdims) as [Han Ham].
  unfold finalize_solution. rewrite Han, Ham. cbn [mbind option_bind].
  eexists. split; [reflexivity|].
  cbn [Result.x Result.value Result.lambda
       with_x with_value with_lambda Result_ctor].
  rewrite !length_array_to_vector, length_vector.
  repeat split; try done.
  intros i Hi. apply lookup_array_to_vector. rewrite length_vector. lia.
Qed.

(** The result stored on [SUCCESS]: here the multiplier vector is resized to
    [m] before the copy. *)
Lemma success_result (s : IpoptSolver Number) (n m : Z)
    (x z_L z_U g lambda : list Number) (obj_value : Number) :
  dims_agree s n m →
  ∃ res,
    finalize_solution Result_lambda s SUCCESS
      n x z_L z_U m g lambda obj_value
    = Some (set_result s (IsResult res)) ∧
    length (Result.x res) = Z.to_nat n ∧
    Result.value res = [obj_value] ∧
    length (Result.lambda res) = Z.to_nat m ∧
    (∀ i : nat, Z.of_nat i < m → Result.lambda res !! i = Some (vget lambda i)).
Proof.
  intros Hdims.
  destruct (dims_agree_asserts s n m Hdims) as [Han Ham].
  unfold finalize_solution. rewrite Han, Ham. cbn [mbind option_bind].
  eexists. split; [reflexivity|].
  cbn [Result.x Result.value Result.lambda
       with_x with_value with_lambda Result_ctor].
  rewrite !length_array_to_vector, length_vector, length_resize.
  repeat split; try done.
  intros i Hi. apply lookup_array_to_vector. rewrite length_resize. lia.
Qed.

End claims_outcome.

(** C9 (amended): for every status of [Initialize] other than
    [User_Requested_Stop] and [NonIpopt_Exception_Thrown], [solve] either
    drives [OptimizeTNLP] (on [Solve_Succeeded], [Solved_To_Acceptable_Level]
    and [Feasible_Point_Found]) or stores a [SolverError] and returns after
    the call of [Initialize] alone (on every other status).  On the two
    excepted statuses the assertion fails: [solve] neither optimizes nor
    stores a result. *)
Theorem solve_dispatch {Number : Type} (app_ : IpoptApplication Number)
    (s : IpoptSolver Number) :
  match Initialize app_ EmptyString with
  | User_Requested_Stop | NonIpopt_Exception_Thrown => solve app_ s = None
  | status =>
      if proceeds status then drives_optimize app_ s else records_error app_ s
  end.
Proof.
  unfold drives_optimize, records_error, solve.
  destruct (Initialize app_ EmptyString); cbn; eauto.
Qed.

(** ** Evaluations on the concrete problem *)

Ltac index_bound := unfold Index.max, Index.min; lia.

(** C1 (instance): the value phase of [eval_h] on the problem with the two
    constraints. *)
Lemma eval_h_lagrangian_hessian_witness :
  ∃ values',
    eval_h Sample.solver2 2 [0.5; 0.5]%float true 1%float 2
      [3; 4]%float true 4 [] [] (Some [0; 0; 0; 0]%float)
    = Some (true, ([], [], Some values')) ∧
    length values' = 4%nat ∧
    ∀ r c : nat, Z.of_nat r < 2 → Z.of_nat c < 2 →
      values' !! (r * Z.to_nat 2 + c)%nat
      = Some (lagrangian_hessian_entry Sample.solver2
                (array_to_vector (vector (Z.to_nat 2)) [0.5; 0.5]%float)
                1%float [3; 4]%float r c).
Proof.
  apply (eval_h_lagrangian_hessian Sample.solver2 2 2).
  - split; reflexivity.
  - index_bound.
  - index_bound.
  - reflexivity.
  - reflexivity.
Defined.

(** C3 (instance): both phases of both queries on the problem with the two
    constraints. *)
Lemma structure_and_value_phases_aligned_witness :
  let s := Sample.solver2 in
  let x_ := array_to_vector (vector 2) [0.5; 0.5]%float in
  let jac :=
    jacobian_from_gradients (matrix 2 2) (constraints (problem s)) x_ in
  let h := compute_hessian s (matrix 2 2) x_ 1%float [3; 4]%float in
  (∃ iRow' jCol' values',
      eval_jac_g s 2 [0.5; 0.5]%float true 2 4 [0; 0; 0; 0] [0; 0; 0; 0] None
        = Some (true, (iRow', jCol', None)) ∧
      eval_jac_g s 2 [0.5; 0.5]%float true 2 4 [] []
        (Some [0; 0; 0; 0]%float)
        = Some (true, ([], [], Some values')) ∧
      aligned 2 2 iRow' jCol' values' (mget jac)) ∧
  (∃ iRow' jCol' values',
      eval_h s 2 [0.5; 0.5]%float true 1%float 2 [3; 4]%float true 4
        [0; 0; 0; 0] [0; 0; 0; 0] None
        = Some (true, (iRow', jCol', None)) ∧
      eval_h s 2 [0.5; 0.5]%float true 1%float 2 [3; 4]%float true 4
        [] [] (Some [0; 0; 0; 0]%float)
        = Some (true, ([], [], Some values')) ∧
      aligned 2 2 iRow' jCol' values' (mget h)).
Proof.
  apply (structure_and_value_phases_aligned Sample.solver2 2 2
           [0.5; 0.5]%float true 1%float [3; 4]%float true
           [0; 0; 0; 0] [0; 0; 0; 0] [0; 0; 0; 0] [0; 0; 0; 0] [] []
           [0; 0; 0; 0]%float [0; 0; 0; 0]%float).
  - split; reflexivity.
  - index_bound.
  - index_bound.
  - reflexivity.
  - reflexivity.
  - reflexivity.
  - reflexivity.
  - reflexivity.
  - reflexivity.
Defined.

(** C4 (claim as stated fails): with 46341 variables the dense Hessian count
    [46341 * 46341] exceeds [2^31 - 1], and the count reported is not it. *)
Lemma get_nlp_info_wide_counterexample :
  ¬ reports_dense_counts Sample.wide.
Proof.
  unfold reports_dense_counts. vm_compute. intros [_ Hh]. discriminate Hh.
Qed.

(** C4 (instance of the amended claim). *)
Lemma get_nlp_info_dense_counts_witness :
  reports_dense_counts Sample.solver2.
Proof.
  apply (get_nlp_info_dense_counts Sample.solver2).
  - cbn. index_bound.
  - cbn. index_bound.
Defined.

(** C5 (instance): the problem without a starting point, [x] requested. *)
Lemma get_starting_point_missing_witness :
  ∃ z_L' z_U',
    get_starting_point Sample.solver_without_start 2 true [0; 0]%float
      true [0; 0]%float [0; 0]%float 1 false [0]%float
    = Some (false, ([0; 0]%float, z_L', z_U'),
            set_result Sample.solver_without_start
              (IsSolverError "Ipopt method needs a starting point.")).
Proof.
  apply (get_starting_point_missing Sample.solver_without_start 2 1 true).
  - split; reflexivity.
  - reflexivity.
Defined.

(** C7 (instance): one constraint; both static types are
    [TwiceDerivableFunction], so every entry is [NON_LINEAR]. *)
Lemma linearity_follows_static_type_witness :
  ∃ var_types' const_types',
    get_variables_linearity Sample.solver 2 [LINEAR; LINEAR]
      = Some (true, var_types') ∧
    get_function_linearity Sample.solver 1 [LINEAR]
      = Some (true, const_types') ∧
    (∀ i : nat, Z.of_nat i < 2 → var_types' !! i = Some NON_LINEAR) ∧
    (∀ i : nat, Z.of_nat i < 1 → const_types' !! i = Some NON_LINEAR).
Proof.
  apply (linearity_follows_static_type Sample.solver 2 1
           [LINEAR; LINEAR] [LINEAR]).
  - split; reflexivity.
  - reflexivity.
  - reflexivity.
Defined.

(** C8 (instance): the two constraints at [(0.5, 0.5)]. *)
Lemma eval_g_components_witness :
  ∃ g',
    eval_g Sample.solver2 2 [0.5; 0.5]%float true 2 [0; 0]%float
      = Some (true, g') ∧
    length g' = 2%nat ∧
    ∀ (i : nat) (c : TwiceDerivableFunction.t float),
      constraints (problem Sample.solver2) !! i = Some c →
      g' !! i
      = Some (vget (TwiceDerivableFunction.call c
                      (array_to_vector (vector 2) [0.5; 0.5]%float)) 0).
Proof.
  apply (eval_g_components Sample.solver2 2 2 [0.5; 0.5]%float true
           [0; 0]%float).
  - split; reflexivity.
  - index_bound.
  - reflexivity.
Defined.

(** C10 (instance): every callback on the problem with the two constraints,
    the structure phase for the two matrix queries. *)
Lemma callbacks_return_true_witness :
  (∃ out, eval_f Sample.solver2 2 [0.5; 0.5]%float true = Some (true, out)) ∧
  (∃ out,
     eval_grad_f Sample.solver2 2 [0.5; 0.5]%float true [0; 0]%float
     = Some (true, out)) ∧
  (∃ out,
     eval_g Sample.solver2 2 [0.5; 0.5]%float true 2 [0; 0]%float
     = Some (true, out)) ∧
  (∃ out,
     eval_jac_g Sample.solver2 2 [0.5; 0.5]%float true 2 4
       [0; 0; 0; 0] [0; 0; 0; 0] None = Some (true, out)) ∧
  (∃ out,
     eval_h Sample.solver2 2 [0.5; 0.5]%float true 1%float 2 [3; 4]%float
       true 4 [0; 0; 0; 0] [0; 0; 0; 0] None = Some (true, out)).
Proof.
  apply (callbacks_return_true Sample.solver2 2 2 [0.5; 0.5]%float true
           [0; 0]%float [0; 0]%float 4 4 [0; 0; 0; 0] [0; 0; 0; 0] None
           1%float [3; 4]%float true RegularMode 0
           0%float 0%float 0%float 0%float 0%float 0%float 0%float 0%float 0).
  - split; reflexivity.
  - index_bound.
  - reflexivity.
Defined.

(** C2 (claim as stated fails): on [USER_REQUESTED_STOP] no result is
    stored, so not every code yields a result. *)
Lemma finalize_solution_user_stop_counterexample :
  ¬ ∀ status : SolverReturn,
      ∃ r : result_t float,
        finalize_solution Sample.Result_lambda Sample.solver status
          2 [0.5; 0.5]%float [0; 0]%float [0; 0]%float
          1 [1]%float [1]%float 0.5%float
        = Some (set_result Sample.solver r).
Proof.
  intros Hall. destruct (Hall USER_REQUESTED_STOP) as [r Hr].
  vm_compute in Hr. discriminate Hr.
Qed.

(** C2 (instance of the amended claim): [MAXITER_EXCEEDED]. *)
Lemma finalize_solution_table_witness :
  let outcome :=
    finalize_solution Sample.Result_lambda Sample.solver MAXITER_EXCEEDED
      2 [0.5; 0.5]%float [0; 0]%float [0; 0]%float
      1 [1]%float [1]%float 0.5%float in
  (∃ r, outcome = Some (set_result Sample.solver r) ∧
        result_family r = Some Family_Error ∧
        ∀ r', outcome = Some (set_result Sample.solver r') → r' = r) ∧
  (MAXITER_EXCEEDED = MAXITER_EXCEEDED →
   outcome
   = Some (set_result Sample.solver
             (IsSolverError "Max iteration exceeded."))).
Proof.
  apply (finalize_solution_table Sample.Result_lambda Sample.solver
           MAXITER_EXCEEDED 2 1).
  split; reflexivity.
Defined.

(** C6 (the code at the failing input): on [STOP_AT_ACCEPTABLE_POINT] with
    [n = 2] and [m = 1] the stored result has the warning, the point and the
    objective value, and an empty multiplier vector: the multiplier [0.25]
    handed over by the engine is not copied. *)
Theorem acceptable_point_drops_multipliers :
  finalize_solution Sample.Result_lambda Sample.solver
    STOP_AT_ACCEPTABLE_POINT
    2 [0.5; 0.5]%float [0; 0]%float [0; 0]%float
    1 [1]%float [0.25]%float 0.5%float
  = Some (set_result Sample.solver
            (IsResultWithWarnings
               {| Result.inputSize := 2;
                  Result.outputSize := 1;
                  Result.x := [0.5; 0.5]%float;
                  Result.value := [0.5]%float;
                  Result.lambda := [] |}
               ["Acceptable point."])).
Proof. vm_compute. reflexivity. Qed.

(** On [SUCCESS], the sibling branch, the same input keeps the multiplier. *)
Lemma success_keeps_multipliers :
  finalize_solution Sample.Result_lambda Sample.solver SUCCESS
    2 [0.5; 0.5]%float [0; 0]%float [0; 0]%float
    1 [1]%float [0.25]%float 0.5%float
  = Some (set_result Sample.solver
            (IsResult
               {| Result.inputSize := 2;
                  Result.outputSize := 1;
                  Result.x := [0.5; 0.5]%float;
                  Result.value := [0.5]%float;
                  Result.lambda := [0.25]%float |})).
Proof. vm_compute. reflexivity. Qed.

(** Whatever the constructor of the result puts into the multipliers, some
    constraint count [m] is not the size of the multipliers stored on
    [STOP_AT_ACCEPTABLE_POINT]. *)
Lemma acceptable_point_multipliers_not_sized
    (Result_lambda : nat → nat → list float) :
  ∃ (s : IpoptSolver float) (m : Z) (lambda : list float) res warnings,
    dims_agree s 2 m ∧ length lambda = Z.to_nat m ∧
    finalize_solution Result_lambda s STOP_AT_ACCEPTABLE_POINT
      2 [0.5; 0.5]%float [0; 0]%float [0; 0]%float
      m (replicate (Z.to_nat m) 1%float) lambda 0.5%float
    = Some (set_result s (IsResultWithWarnings res warnings)) ∧
    length (Result.lambda res) ≠ Z.to_nat m.
Proof.
  set (k := Datatypes.S (length (Result_lambda 2%nat 1%nat))).
  set (s := {| problem :=
                 Sample.pb (replicate k Sample.constraint) None;
               result_ := NoSolution |}).
  assert (dims_agree s 2 (Z.of_nat k)) as Hdims.
  { split; [reflexivity|]. cbn [s problem constraints Sample.pb].
    by rewrite length_replicate. }
  destruct (acceptable_point_result Result_lambda s 2 (Z.of_nat k)
              [0.5; 0.5]%float [0; 0]%float [0; 0]%float
              (replicate (Z.to_nat (Z.of_nat k)) 1%float)
              (replicate k 1%float) 0.5%float Hdims)
    as (res & Hres & _ & _ & _ & Hlen).
  exists s, (Z.of_nat k), (replicate k 1%float), res, ["Acceptable point."].
  split; [done|]. split; [by rewrite length_replicate, Nat2Z.id|].
  split; [done|]. rewrite Hlen, Nat2Z.id. unfold k.
  change (Z.to_nat 2) with 2%nat. lia.
Qed.

(** C9 (claim as stated fails): on [User_Requested_Stop], [solve] neither
    drives the optimize step nor records an error. *)
Lemma solve_user_stop_counterexample :
  ¬ ∀ status : ApplicationReturnStatus,
      drives_optimize (Sample.app status) Sample.solver ∨
      records_error (Sample.app status) Sample.solver.
Proof.
  intros Hall. destruct (Hall User_Requested_Stop) as [Hd|[what He]].
  - vm_compute in Hd. discriminate Hd.
  - vm_compute in He. discriminate He.
Qed.

(** ** The accumulation on binary64 numbers *)

(** The value phase of [eval_h] on the problem with the two constraints,
    objective factor 1 and multipliers 3 and 4. *)
Example eval_h_values :
  eval_h Sample.solver2 2 [0.5; 0.5]%float true 1%float 2
    [3; 4]%float true 4 [] [] (Some [0; 0; 0; 0]%float)
  = Some (true, ([], [], Some [2; 4; 4; 2]%float)).
Proof. vm_compute. reflexivity. Qed.

(** The structure phase of [eval_jac_g] on the same problem. *)
Example eval_jac_g_structure :
  eval_jac_g Sample.solver2 2 [0.5; 0.5]%float true 2 4
    [9; 9; 9; 9] [9; 9; 9; 9] None
  = Some (true, ([0; 0; 1; 1], [0; 1; 0; 1], None)).
Proof. vm_compute. reflexivity. Qed.

(** The order of the accumulation is observable on binary64: with the three
    terms [1e16], [1] and [1] the reference sum, taken from the objective
    term on, is [1e16], while adding the two constraint terms first gives
    [1e16 + 2]. *)
Example accumulation_order_observable :
  let big : TwiceDerivableFunction.t float :=
    {| TwiceDerivableFunction.n := 1;
       TwiceDerivableFunction.call := λ _, [0%float];
       TwiceDerivableFunction.gradient := λ _ _, [0%float];
       TwiceDerivableFunction.hessian := λ _ _, [[1e16%float]] |} in
  let unit : TwiceDerivableFunction.t float :=
    {| TwiceDerivableFunction.n := 1;
       TwiceDerivableFunction.call := λ _, [0%float];
       TwiceDerivableFunction.gradient := λ _ _, [0%float];
       TwiceDerivableFunction.hessian := λ _ _, [[1%float]] |} in
  let s : IpoptSolver float :=
    {| problem :=
         {| F := TwiceDerivableFunction_class;
            CF := TwiceDerivableFunction_class;
            function := big;
            constraints := [unit; unit];
            argBounds := [];
            bounds := [];
            argScales := [];
            scales := [];
            startingPoint := None |};
       result_ := NoSolution |} in
  eval_h s 1 [0%float] true 1%float 2 [1; 1]%float true 1 [] []
    (Some [0%float])
  = Some (true, ([], [], Some [1e16%float])) ∧
  (1e16 + (1 * 1 + 1 * 1))%float ≠ 1e16%float.
Proof. split; [vm_compute; reflexivity | by vm_compute]. Qed.

(** * Further properties of the adapter *)

(** ** Copies between buffers and containers *)

Section bridge_facts.
Context {Number : Type} `{NumberOps Number}.

Lemma list_inserts_0_prefix {A : Type} (k l : list A) :
  (length k ≤ length l)%nat → list_inserts 0 k l = k ++ drop (length k) l.
Proof.
  intros Hlen. apply list_eq. intros i.
  destruct (decide (i < length k)%nat) as [Hi|Hi].
  - rewrite list_lookup_inserts by lia.
    rewrite lookup_app_l by done. f_equal. lia.
  - rewrite list_lookup_inserts_ge by lia.
    rewrite lookup_app_r by lia. rewrite lookup_drop. f_equal. lia.
Qed.

Lemma list_inserts_0_full {A : Type} (k l : list A) :
  length k = length l → list_inserts 0 k l = k.
Proof.
  intros Hlen. rewrite list_inserts_0_prefix by lia.
  rewrite drop_ge by lia. apply app_nil_r.
Qed.

(** The copy out of a buffer reads its leading entries. *)
Lemma array_to_vector_take (dst src : list Number) :
  (length dst ≤ length src)%nat →
  array_to_vector dst src = take (length dst) src.
Proof.
  intros Hlen. apply list_eq. intros i.
  destruct (decide (i < length dst)%nat) as [Hi|Hi].
  - rewrite lookup_array_to_vector by done.
    rewrite lookup_take_lt by done.
    destruct (lookup_lt_is_Some_2 src i) as [a Ha]; [lia|].
    by rewrite Ha, (vget_lookup _ _ _ Ha).
  - rewrite lookup_take_ge by lia.
    apply lookup_ge_None_2. rewrite length_array_to_vector. lia.
Qed.

(** The copy into a buffer followed by the copy out of it gives the
    container back. *)
Lemma array_to_vector_to_array (buf v : list Number) :
  (length v ≤ length buf)%nat →
  array_to_vector (vector (length v)) (vector_to_array buf v) = v.
Proof.
  intros Hlen. rewrite array_to_vector_take.
  - unfold vector_to_array. rewrite list_inserts_0_prefix by done.
    rewrite length_vector. by rewrite take_app_length.
  - rewrite length_vector, length_vector_to_array. done.
Qed.

Lemma for_loop_to_nat {S : Type} (bound : Z) (body : Z → S → S) (st : S) :
  for_loop bound body st = for_loop (Z.of_nat (Z.to_nat bound)) body st.
Proof. unfold for_loop. by rewrite Nat2Z.id. Qed.

(** A loop over a pair of buffers that updates each on its own is the pair
    of the two loops. *)
Lemma for_loop_pair {S T : Type} (bound : Z)
    (f : Z → S → S) (g : Z → T → T) (a : S) (c : T) :
  for_loop bound (λ i '(a, c), (f i a, g i c)) (a, c)
  = (for_loop bound f a, for_loop bound g c).
Proof.
  unfold for_loop. generalize (seq 0 (Z.to_nat bound)) as l.
  intros l. revert a c. induction l as [|i l IH]; intros a c; [done|].
  cbn [fold_left]. apply IH.
Qed.

(** A loop that stores the same value at every position below the length of
    the buffer fills it. *)
Lemma for_loop_fill {A : Type} (a : A) (buf : list A) :
  for_loop (Z.of_nat (length buf)) (λ i buf, <[Z.to_nat i := a]> buf) buf
  = replicate (length buf) a.
Proof.
  destruct (for_loop_write (λ _, a) (λ i buf, <[Z.to_nat i := a]> buf)
              (length buf) buf) as [Hlen Hget]; [done|].
  apply list_eq. intros k. rewrite Hget.
  case_decide as Hk.
  - by rewrite lookup_replicate_2 by lia.
  - rewrite !lookup_ge_None_2; [done|rewrite length_replicate; lia|lia].
Qed.

(** The pointer walk of [copy_bounds], entered at the offsets [p] and [q]. *)
Lemma copy_bounds_loop (bs : list (Number * Number)) :
  ∀ (p q : nat) (lo hi : list Number) p' q' lo' hi',
    fold_left (λ '(p_lo, p_hi, lo, hi) it,
        (S p_lo, S p_hi, <[p_lo := it.1]> lo, <[p_hi := it.2]> hi))
      bs (p, q, lo, hi) = (p', q', lo', hi') →
    ∀ k : nat,
      lo' !! k
      = (if decide (p ≤ k < p + length bs ∧ k < length lo)%nat
         then fst <$> bs !! (k - p)%nat else lo !! k) ∧
      hi' !! k
      = (if decide (q ≤ k < q + length bs ∧ k < length hi)%nat
         then snd <$> bs !! (k - q)%nat else hi !! k).
Proof.
  induction bs as [|b bs IH]; intros p q lo hi p' q' lo' hi'.
  - cbn. intros [= <- <- <- <-] k. split; case_decide; (lia || done).
  - cbn [fold_left length]. intros Hfold k.
    destruct (IH _ _ _ _ _ _ _ _ Hfold k) as [Hlo Hhi].
    rewrite length_insert in Hlo, Hhi. rewrite Hlo, Hhi. split.
    + destruct (decide (k = p)) as [->|Hne].
      * destruct (decide (p < length lo)%nat).
        -- rewrite list_lookup_insert_eq by done. rewrite Nat.sub_diag.
           repeat case_decide; try lia; reflexivity.
        -- rewrite list_insert_ge by lia.
           repeat case_decide; try lia; reflexivity.
      * rewrite list_lookup_insert_ne by done.
        repeat case_decide; try lia; try reflexivity;
          (replace (k - p)%nat with (S (k - S p)) by lia); reflexivity.
    + destruct (decide (k = q)) as [->|Hne].
      * destruct (decide (q < length hi)%nat).
        -- rewrite list_lookup_insert_eq by done. rewrite Nat.sub_diag.
           repeat case_decide; try lia; reflexivity.
        -- rewrite list_insert_ge by lia.
           repeat case_decide; try lia; reflexivity.
      * rewrite list_lookup_insert_ne by done.
        repeat case_decide; try lia; try reflexivity;
          (replace (k - q)%nat with (S (k - S q)) by lia); reflexivity.
Qed.

(** Over buffers as long as the list of bounds, [copy_bounds] leaves the
    lower bounds in the first and the upper bounds in the second. *)
Lemma copy_bounds_full (bs : list (Number * Number)) (lo hi : list Number) :
  length lo = length bs → length hi = length bs →
  copy_bounds bs lo hi = (bs.*1, bs.*2).
Proof.
  intros Hlo Hhi. unfold copy_bounds.
  destruct (fold_left _ _ _) as [[[p' q'] lo'] hi'] eqn:Hfold.
  pose proof (copy_bounds_loop bs _ _ _ _ _ _ _ _ Hfold) as Hget.
  f_equal; apply list_eq; intros k; destruct (Hget k) as [Hl Hh]; clear Hget.
  - rewrite Hl, list_lookup_fmap, Nat.sub_0_r. clear Hl Hh.
    case_decide; [done|]. rewrite !lookup_ge_None_2 by lia. done.
  - rewrite Hh, list_lookup_fmap, Nat.sub_0_r. clear Hl Hh.
    case_decide; [done|]. rewrite !lookup_ge_None_2 by lia. done.
Qed.

End bridge_facts.

(** ** Bounds, scaling and the starting point *)

Section extras_structure.
Context {Number : Type} `{NumberOps Number}.

(** X1: over buffers as long as the problem's lists of bounds,
    [get_bounds_info] returns [true] and leaves in [x_l], [x_u] the lower and
    upper bounds of the variables and in [g_l], [g_u] those of the
    constraints, each in the order of the problem. *)
Theorem get_bounds_info_copies (s : IpoptSolver Number) (n m : Z)
    (x_l x_u g_l g_u : list Number) :
  dims_agree s n m →
  length x_l = length (argBounds (problem s)) →
  length x_u = length (argBounds (problem s)) →
  length g_l = length (bounds (problem s)) →
  length g_u = length (bounds (problem s)) →
  get_bounds_info s n x_l x_u m g_l g_u
  = Some (true, ((argBounds (problem s)).*1, (argBounds (problem s)).*2,
                 (bounds (problem s)).*1, (bounds (problem s)).*2)).
Proof.
  intros Hdims Hxl Hxu Hgl Hgu.
  destruct (dims_agree_asserts s n m Hdims) as [Han Ham].
  unfold get_bounds_info. rewrite Han, Ham. cbn [mbind option_bind].
  by rewrite !copy_bounds_full.
Qed.

(** X2: [get_scaling_parameters] returns [true], switches both scalings on,
    hands [obj_scaling] back as it received it, and over buffers of [n] and
    [m] entries leaves in [x_scaling] the first [n] scales of the variables
    and in [g_scaling] the first [m] scales of the constraints. *)
Theorem get_scaling_parameters_copies (s : IpoptSolver Number)
    (obj_scaling : Number) (use_x use_g : bool) (n m : Z)
    (x_scaling g_scaling : list Number) :
  0 ≤ n →
  (Z.to_nat n ≤ length (argScales (problem s)))%nat →
  length x_scaling = Z.to_nat n →
  (Z.to_nat m ≤ length (scales (problem s)))%nat →
  length g_scaling = Z.to_nat m →
  get_scaling_parameters s obj_scaling use_x n x_scaling use_g m g_scaling
  = (true, (obj_scaling, true, take (Z.to_nat n) (argScales (problem s)),
            true, take (Z.to_nat m) (scales (problem s)))).
Proof.
  intros Hn Hargs Hx Hscales Hg. unfold get_scaling_parameters, memcpy.
  rewrite list_inserts_0_full by (rewrite length_take; lia).
  repeat f_equal.
  rewrite for_loop_to_nat.
  destruct (for_loop_write
              (λ i, vget (scales (problem s)) (Z.to_nat i))
              (λ i g_scaling,
                 <[Z.to_nat i := vget (scales (problem s)) (Z.to_nat i)]>
                   g_scaling)
              (Z.to_nat m) g_scaling) as [Hlen Hget]; [done|].
  apply list_eq. intros k. rewrite Hget, Nat2Z.id.
  case_decide as Hk.
  - rewrite lookup_take_lt by lia.
    destruct (lookup_lt_is_Some_2 (scales (problem s)) k) as [a Ha]; [lia|].
    by rewrite Ha, (vget_lookup _ _ _ Ha).
  - rewrite lookup_take_ge by lia. apply lookup_ge_None_2. lia.
Qed.

(** X3: when the problem has a starting point that fits the buffer [x],
    [get_starting_point] returns [true], leaves the solver as it was and
    writes the starting point to the head of [x]; it does so whether or not
    [x] was requested. *)
Theorem get_starting_point_present (s : IpoptSolver Number) (n m : Z)
    (init_x : bool) (x : list Number) (init_z : bool)
    (z_L z_U lambda x0 : list Number) :
  dims_agree s n m →
  startingPoint (problem s) = Some x0 →
  (length x0 ≤ length x)%nat →
  ∃ z_L' z_U',
    get_starting_point s n init_x x init_z z_L z_U m false lambda
    = Some (true, (x0 ++ drop (length x0) x, z_L', z_U'), s).
Proof.
  intros Hdims Hstart Hlen.
  destruct (dims_agree_asserts s n m Hdims) as [Han Ham].
  unfold get_starting_point. rewrite Han, Ham, Hstart.
  cbn [mbind option_bind assert eqb].
  destruct (if init_z then _ else _) as [z_L' z_U'].
  exists z_L', z_U'. unfold vector_to_array.
  by rewrite list_inserts_0_prefix.
Qed.

(** X4: over buffers of [n] entries, [get_starting_point] sets every bound
    multiplier to one when they are requested and leaves both buffers as
    they were when they are not; this holds on every path, the failing one
    included. *)
Theorem get_starting_point_bound_multipliers (s : IpoptSolver Number)
    (n m : Z) (init_x : bool) (x : list Number) (init_z : bool)
    (z_L z_U lambda : list Number) :
  dims_agree s n m →
  length z_L = Z.to_nat n → length z_U = Z.to_nat n →
  ∃ b x' s',
    get_starting_point s n init_x x init_z z_L z_U m false lambda
    = Some (b, (x',
                if init_z then replicate (Z.to_nat n) one else z_L,
                if init_z then replicate (Z.to_nat n) one else z_U), s').
Proof.
  intros Hdims HzL HzU.
  destruct (dims_agree_asserts s n m Hdims) as [Han Ham].
  unfold get_starting_point. rewrite Han, Ham.
  cbn [mbind option_bind assert eqb].
  assert ((if init_z
           then for_loop n (λ i '(z_L, z_U),
                  (<[Z.to_nat i := one]> z_L, <[Z.to_nat i := one]> z_U))
                  (z_L, z_U)
           else (z_L, z_U))
          = (if init_z then replicate (Z.to_nat n) one else z_L,
             if init_z then replicate (Z.to_nat n) one else z_U)) as ->.
  { destruct init_z; [|done].
    rewrite (for_loop_pair n (λ i z, <[Z.to_nat i := one]> z)
               (λ i z, <[Z.to_nat i := one]> z)).
    rewrite !(for_loop_to_nat n).
    rewrite <- HzL, for_loop_fill. rewrite HzL, <- HzU.
    by rewrite for_loop_fill. }
  destruct (startingPoint (problem s)); [eauto|].
  destruct init_x; eauto.
Qed.

(** X5: whenever [get_starting_point] returns, it returns [false] exactly
    when the problem has no starting point and [x] was requested; in that
    case the stored result is the error, and otherwise the solver is as it
    was.  The problem is never touched. *)
Theorem get_starting_point_fails_iff (s : IpoptSolver Number) (n m : Z)
    (init_x : bool) (x : list Number) (init_z : bool)
    (z_L z_U : list Number) (init_lambda : bool) (lambda : list Number)
    b out s' :
  get_starting_point s n init_x x init_z z_L z_U m init_lambda lambda
    = Some (b, out, s') →
  (b = false ↔ startingPoint (problem s) = None ∧ init_x = true) ∧
  (b = false →
   result_ s' = IsSolverError "Ipopt method needs a starting point.") ∧
  (b = true → s' = s) ∧
  problem s' = problem s.
Proof.
  unfold get_starting_point.
  destruct (assert_n s n) as [[]|]; [|done].
  destruct (assert_m s m) as [[]|]; [|done].
  destruct (assert _) as [[]|]; [|done]. cbn [mbind option_bind].
  destruct (if init_z then _ else _) as [z_L' z_U'].
  destruct (startingPoint (problem s)) as [x0|].
  - intros [= <- _ <-]. repeat split; try done. by intros [? _].
  - destruct init_x; intros [= <- _ <-]; repeat split; try done.
    by intros [_ ?].
Qed.

End extras_structure.

(** ** Value queries *)

Section extras_values.
Context {Number : Type} `{NumberOps Number}.

Lemma point_of_buffer (n : nat) (x : list Number) :
  (n ≤ length x)%nat → array_to_vector (vector n) x = take n x.
Proof.
  intros Hn. rewrite array_to_vector_take by (rewrite length_vector; lia).
  by rewrite length_vector.
Qed.

(** X6: [eval_f] and [eval_grad_f] evaluate the objective at the first [n]
    entries of the buffer [x]: the value returned is component 0 of the
    objective there, and a gradient buffer as long as the gradient receives
    the gradient of component 0 there. *)
Theorem objective_queries (s : IpoptSolver Number) (n m : Z)
    (x : list Number) (new_x : bool) (grad_f : list Number) :
  dims_agree s n m →
  (Z.to_nat n ≤ length x)%nat →
  length grad_f
  = length (TwiceDerivableFunction.gradient (function (problem s))
              (take (Z.to_nat n) x) 0) →
  eval_f s n x new_x
  = Some (true,
          vget (TwiceDerivableFunction.call (function (problem s))
                  (take (Z.to_nat n) x)) 0) ∧
  eval_grad_f s n x new_x grad_f
  = Some (true,
          TwiceDerivableFunction.gradient (function (problem s))
            (take (Z.to_nat n) x) 0).
Proof.
  intros Hdims Hx Hgrad.
  destruct (dims_agree_asserts s n m Hdims) as [Han _].
  unfold eval_f, eval_grad_f. rewrite Han. cbn [mbind option_bind].
  rewrite point_of_buffer by done. split; [done|].
  unfold vector_to_array. by rewrite list_inserts_0_full.
Qed.

Lemma mget_jacobian_from_gradients (rows cols : nat)
    (cs : list (TwiceDerivableFunction.t Number)) (x : list Number)
    (i j : nat) (c : TwiceDerivableFunction.t Number) :
  cs !! i = Some c → (i < rows)%nat → (j < cols)%nat →
  mget (jacobian_from_gradients (matrix rows cols) cs x) i j
  = vget (TwiceDerivableFunction.gradient c x 0) j.
Proof.
  intros Hc Hi Hj. unfold jacobian_from_gradients, matrix.
  eapply mget_lookup.
  - rewrite list_lookup_imap, lookup_replicate_2 by done. cbn. by rewrite Hc.
  - by rewrite list_lookup_imap, lookup_replicate_2 by done.
Qed.

(** X7: in its value phase over a buffer of [m * n] entries, [eval_jac_g]
    writes at position [i * n + j] component [j] of the gradient of the
    [i]-th constraint at the point read from [x]: row [i] of the Jacobian is
    the gradient of constraint [i]. *)
Theorem eval_jac_g_rows_are_gradients (s : IpoptSolver Number) (n m : Z)
    (x : list Number) (new_x : bool) (nele_jac : Z) (iRow jCol : list Z)
    (values : list Number) :
  dims_agree s n m →
  m * n ≤ Index.max →
  length values = Z.to_nat (m * n) →
  ∃ values',
    eval_jac_g s n x new_x m nele_jac iRow jCol (Some values)
    = Some (true, (iRow, jCol, Some values')) ∧
    ∀ (i j : nat) (c : TwiceDerivableFunction.t Number),
      constraints (problem s) !! i = Some c → Z.of_nat j < n →
      values' !! (i * Z.to_nat n + j)%nat
      = Some (vget (TwiceDerivableFunction.gradient c
                      (array_to_vector (vector (Z.to_nat n)) x) 0) j).
Proof.
  intros Hdims Hmn Hlen.
  destruct (dims_agree_asserts s n m Hdims) as [Han Ham].
  destruct Hdims as [Hn Hm].
  set (fn := TwiceDerivableFunction.n (function (problem s))) in *.
  set (cm := length (constraints (problem s))) in *.
  unfold eval_jac_g. rewrite Han, Ham. cbn [mbind option_bind].
  fold fn cm. subst n m. rewrite Nat2Z.id in *.
  rewrite <- Nat2Z.inj_mul, ?Nat2Z.id in *.
  destruct (value_phase cm fn
              (jacobian_from_gradients (matrix cm fn)
                 (constraints (problem s))
                 (array_to_vector (vector fn) x)) values Hmn)
    as (values' & -> & _ & Hget).
  exists values'. split; [done|]. intros i j c Hc Hj.
  assert (i < cm)%nat as Hi by (apply lookup_lt_is_Some_1; eauto).
  destruct (row_major_position fn i j) as [Hdiv Hmod]; [lia|].
  rewrite Hget, Hdiv, Hmod by nia. f_equal.
  apply mget_jacobian_from_gradients; (done || lia).
Qed.

Lemma fold_left_ext_in {A B : Type} (f g : A → B → A) (l : list B) (a : A) :
  (∀ acc b, b ∈ l → f acc b = g acc b) → fold_left f l a = fold_left g l a.
Proof.
  revert a. induction l as [|b l IH]; intros a Hfg; [done|].
  cbn. rewrite Hfg by left. apply IH. intros. apply Hfg. by right.
Qed.

(** X8: when the Hessians of the objective and of every constraint are
    symmetric at the point, the dense Hessian written by [eval_h] is
    symmetric: positions [r * n + c] and [c * n + r] of the value buffer
    hold the same number. *)
Theorem eval_h_symmetric (s : IpoptSolver Number) (n m : Z)
    (x : list Number) (new_x : bool) (obj_factor : Number)
    (lambda : list Number) (new_lambda : bool) (nele_hess : Z)
    (iRow jCol : list Z) (values : list Number) :
  dims_agree s n m →
  m ≤ Index.max → n * n ≤ Index.max →
  hessians_dense s (array_to_vector (vector (Z.to_nat n)) x) = true →
  length values = Z.to_nat (n * n) →
  symmetric (Z.to_nat n)
    (TwiceDerivableFunction.hessian (function (problem s))
       (array_to_vector (vector (Z.to_nat n)) x) 0) →
  Forall (λ g, symmetric (Z.to_nat n)
                 (TwiceDerivableFunction.hessian g
                    (array_to_vector (vector (Z.to_nat n)) x) 0))
    (constraints (problem s)) →
  ∃ values',
    eval_h s n x new_x obj_factor m lambda new_lambda nele_hess iRow jCol
      (Some values) = Some (true, (iRow, jCol, Some values')) ∧
    ∀ r c : nat, Z.of_nat r < n → Z.of_nat c < n →
      values' !! (r * Z.to_nat n + c)%nat
      = values' !! (c * Z.to_nat n + r)%nat.
Proof.
  intros Hdims Hm Hnn Hdense Hlen Hsymf Hsymg.
  destruct (dims_agree_asserts s n m Hdims) as [Han Ham].
  destruct Hdims as [Hn Hm'].
  set (fn := TwiceDerivableFunction.n (function (problem s))) in *.
  unfold eval_h. rewrite Han, Ham. cbn [mbind option_bind].
  subst n. rewrite Nat2Z.id in *.
  set (x_ := array_to_vector (vector fn) x) in *.
  set (h := compute_hessian s _ x_ obj_factor lambda).
  destruct (value_phase fn fn h values) as (values' & Hloop & _ & Hget);
    [lia|].
  fold fn. rewrite Hloop. exists values'. split; [done|].
  intros r c Hr Hc.
  destruct (row_major_position fn r c) as [Hdiv Hmod]; [lia|].
  destruct (row_major_position fn c r) as [Hdiv' Hmod']; [lia|].
  rewrite !Hget by nia. rewrite Hdiv, Hmod, Hdiv', Hmod'. f_equal.
  subst h.
  destruct (compute_hessian_entry s (matrix fn fn) x_ obj_factor lambda r c)
    as [_ Hrc]; [lia..|done|].
  destruct (compute_hessian_entry s (matrix fn fn) x_ obj_factor lambda c r)
    as [_ Hcr]; [lia..|done|].
  etrans; [exact Hrc|]. etrans; [|symmetry; exact Hcr].
  unfold lagrangian_hessian_entry. rewrite (Hsymf r c) by lia.
  apply fold_left_ext_in. intros acc i _.
  destruct (constraints (problem s) !! i) as [g|] eqn:Hg; [|done].
  rewrite Forall_lookup in Hsymg. by rewrite (Hsymg _ _ Hg r c) by lia.
Qed.

(** X9: on a problem without constraints the constraint queries succeed and
    leave every buffer as it was, in both phases of the Jacobian query, and
    the value phase of [eval_h] does not depend on the multipliers. *)
Theorem no_constraints (s : IpoptSolver Number) (n m : Z)
    (x : list Number) (new_x : bool) (g : list Number) (nele_jac : Z)
    (iRow jCol : list Z) (values : list Number)
    (obj_factor : Number) (lambda lambda' : list Number) (new_lambda : bool)
    (nele_hess : Z) :
  constraints (problem s) = [] →
  dims_agree s n m →
  eval_g s n x new_x m g = Some (true, g) ∧
  eval_jac_g s n x new_x m nele_jac iRow jCol None
    = Some (true, (iRow, jCol, None)) ∧
  eval_jac_g s n x new_x m nele_jac iRow jCol (Some values)
    = Some (true, (iRow, jCol, Some values)) ∧
  eval_h s n x new_x obj_factor m lambda new_lambda nele_hess iRow jCol
    (Some values)
  = eval_h s n x new_x obj_factor m lambda' new_lambda nele_hess iRow jCol
      (Some values).
Proof.
  intros Hcs Hdims.
  destruct (dims_agree_asserts s n m Hdims) as [Han Ham].
  destruct Hdims as [Hn Hm]. rewrite Hcs in Hm. cbn in Hm. subst m.
  unfold eval_g, eval_jac_g, eval_h, compute_hessian.
  rewrite Han, Ham, Hcs. cbn [mbind option_bind].
  repeat split; reflexivity.
Qed.

(** X10: the structure phase of [eval_h] checks the element count it is
    given: with the counts of the problem and [n * n] a value of [Index], it
    fails its assertion exactly when [nele_hess] is not [n * n].  The
    structure phase of [eval_jac_g] returns [true] whatever [nele_jac] is. *)
Theorem eval_h_checks_element_count (s : IpoptSolver Number) (n m : Z)
    (x : list Number) (new_x : bool) (obj_factor : Number)
    (lambda : list Number) (new_lambda : bool) (nele_jac nele_hess : Z)
    (iRow jCol : list Z) :
  dims_agree s n m →
  n * n ≤ Index.max →
  (eval_h s n x new_x obj_factor m lambda new_lambda nele_hess iRow jCol None
   = None ↔ nele_hess ≠ n * n) ∧
  ∃ out,
    eval_jac_g s n x new_x m nele_jac iRow jCol None = Some (true, out).
Proof.
  intros Hdims Hnn.
  destruct (dims_agree_asserts s n m Hdims) as [Han Ham].
  destruct Hdims as [Hn Hm].
  unfold eval_h, eval_jac_g. rewrite Han, Ham. cbn [mbind option_bind].
  split.
  - subst n. rewrite <- Nat2Z.inj_mul in *.
    destruct (structure_phase _ _ iRow jCol Hnn) as (iRow' & jCol' & -> & _).
    unfold assert. destruct (Z.eqb_spec
      (Z.of_nat (TwiceDerivableFunction.n (function (problem s))
                 * TwiceDerivableFunction.n (function (problem s))))
      nele_hess) as [Heq|Hne]; cbn.
    + split; [done|]. intros Hne. by destruct Hne.
    + split; [|done]. intros _ Heq. by destruct Hne.
  - destruct (dense_loop _ _ _ _) as [? [??]]. eauto.
Qed.

End extras_values.

(** ** Assertions, the stored result and its messages *)

Section extras_outcome.
Context {Number : Type} `{NumberOps Number}.
Variable Result_lambda : nat → nat → list Number.

Lemma assert_n_fails (s : IpoptSolver Number) (n : Z) :
  Z.of_nat (TwiceDerivableFunction.n (function (problem s))) ≠ n →
  assert_n s n = None.
Proof.
  intros Hn. unfold assert_n, assert. by rewrite (proj2 (Z.eqb_neq _ _) Hn).
Qed.

Lemma assert_m_fails (s : IpoptSolver Number) (m : Z) :
  Z.of_nat (length (constraints (problem s))) ≠ m →
  assert_m s m = None.
Proof.
  intros Hm. unfold assert_m, assert. by rewrite (proj2 (Z.eqb_neq _ _) Hm).
Qed.

(** X11: a callback that is handed a count that is not the problem's fails
    its assertion and returns nothing: the queries that take [n] when [n] is
    not the variable count, the one that takes [m] when [m] is not the
    constraint count, and those that take both when either is off. *)
Theorem count_mismatch_aborts (s : IpoptSolver Number) (n m : Z)
    (x : list Number) (new_x : bool) (grad_f g x_l x_u g_l g_u : list Number)
    (var_types const_types : list LinearityType)
    (init_x init_z init_lambda : bool) (z_L z_U lambda : list Number)
    (nele_jac nele_hess : Z) (iRow jCol : list Z)
    (values : option (list Number)) (obj_factor obj_value : Number)
    (new_lambda : bool) (status : SolverReturn) :
  (Z.of_nat (TwiceDerivableFunction.n (function (problem s))) ≠ n →
   eval_f s n x new_x = None ∧
   eval_grad_f s n x new_x grad_f = None ∧
   get_variables_linearity s n var_types = None) ∧
  (Z.of_nat (length (constraints (problem s))) ≠ m →
   get_function_linearity s m const_types = None) ∧
  (Z.of_nat (TwiceDerivableFunction.n (function (problem s))) ≠ n ∨
   Z.of_nat (length (constraints (problem s))) ≠ m →
   get_bounds_info s n x_l x_u m g_l g_u = None ∧
   get_starting_point s n init_x x init_z z_L z_U m init_lambda lambda
     = None ∧
   eval_g s n x new_x m g = None ∧
   eval_jac_g s n x new_x m nele_jac iRow jCol values = None ∧
   eval_h s n x new_x obj_factor m lambda new_lambda nele_hess iRow jCol
     values = None ∧
   finalize_solution Result_lambda s status n x z_L z_U m g lambda obj_value
     = None).
Proof.
  split; [|split].
  - intros Hn%assert_n_fails.
    unfold eval_f, eval_grad_f, get_variables_linearity. by rewrite Hn.
  - intros Hm%assert_m_fails. unfold get_function_linearity. by rewrite Hm.
  - unfold get_bounds_info, get_starting_point, eval_g, eval_jac_g, eval_h,
      finalize_solution.
    intros [Hn%assert_n_fails | Hm%assert_m_fails].
    + by rewrite Hn.
    + rewrite Hm. by destruct (assert_n s n) as [[]|].
Qed.

(** X12: on [SUCCESS] and on [FEASIBLE_POINT_FOUND], over engine buffers that
    hold [n] and [m] entries, the stored result is a [Result] with the first
    [n] entries of [x] as its point, the first [m] entries of [lambda] as
    its multipliers and the objective value as its only value. *)
Theorem finalize_solution_success_payload (s : IpoptSolver Number)
    (status : SolverReturn) (n m : Z) (x z_L z_U g lambda : list Number)
    (obj_value : Number) :
  dims_agree s n m →
  status = SUCCESS ∨ status = FEASIBLE_POINT_FOUND →
  (Z.to_nat n ≤ length x)%nat →
  (Z.to_nat m ≤ length lambda)%nat →
  finalize_solution Result_lambda s status n x z_L z_U m g lambda obj_value
  = Some (set_result s
            (IsResult
               {| Result.inputSize := Z.to_nat n;
                  Result.outputSize := 1;
                  Result.x := take (Z.to_nat n) x;
                  Result.value := [obj_value];
                  Result.lambda := take (Z.to_nat m) lambda |})).
Proof.
  intros Hdims Hstatus Hx Hlambda.
  destruct (dims_agree_asserts s n m Hdims) as [Han Ham].
  unfold finalize_solution. rewrite Han, Ham. cbn [mbind option_bind].
  assert (array_to_vector (vector (Z.to_nat n)) x = take (Z.to_nat n) x)
    as Hpoint by (by apply point_of_buffer).
  assert (array_to_vector
            (resize (Z.to_nat m) (Result_lambda (Z.to_nat n) 1)) lambda
          = take (Z.to_nat m) lambda) as Hmult.
  { rewrite array_to_vector_take by (rewrite length_resize; lia).
    by rewrite length_resize. }
  destruct Hstatus as [-> | ->];
    cbn [Result.x Result.value Result.lambda Result.inputSize
         Result.outputSize with_x with_value with_lambda Result_ctor];
    by rewrite Hpoint, Hmult.
Qed.

(** X13: [finalize_solution] overwrites the result slot and stores nothing
    else of what the engine hands over: its outcome is the same whatever the
    slot held before and whatever the bound multipliers [z_L], [z_U] and the
    constraint values [g] are, and the problem of the solver it returns is
    the problem it was given. *)
Theorem finalize_solution_overwrites (s : IpoptSolver Number)
    (r0 : result_t Number) (status : SolverReturn) (n m : Z)
    (x z_L z_U g z_L' z_U' g' lambda : list Number) (obj_value : Number) :
  finalize_solution Result_lambda (set_result s r0) status
    n x z_L z_U m g lambda obj_value
  = finalize_solution Result_lambda s status
      n x z_L' z_U' m g' lambda obj_value ∧
  ∀ s',
    finalize_solution Result_lambda s status n x z_L z_U m g lambda obj_value
      = Some s' → problem s' = problem s.
Proof.
  unfold finalize_solution.
  change (assert_n (set_result s r0) n) with (assert_n s n).
  change (assert_m (set_result s r0) m) with (assert_m s m).
  destruct (assert_n s n) as [[]|]; [|done].
  destruct (assert_m s m) as [[]|]; [|done]. cbn [mbind option_bind].
  destruct status; cbn; (split; [reflexivity|]); by intros s' [= <-].
Qed.

(** X14: the error messages of [finalize_solution] tell the termination
    codes apart: two calls that store an error with the same message were
    made with the same code. *)
Theorem finalize_solution_message_identifies_code
    (s1 s2 s1' s2' : IpoptSolver Number) (status1 status2 : SolverReturn)
    (n1 m1 n2 m2 : Z) (x1 zl1 zu1 g1 l1 x2 zl2 zu2 g2 l2 : list Number)
    (o1 o2 : Number) (what : string) :
  finalize_solution Result_lambda s1 status1 n1 x1 zl1 zu1 m1 g1 l1 o1
    = Some s1' →
  finalize_solution Result_lambda s2 status2 n2 x2 zl2 zu2 m2 g2 l2 o2
    = Some s2' →
  error_message (result_ s1') = Some what →
  error_message (result_ s2') = Some what →
  status1 = status2.
Proof.
  unfold finalize_solution.
  destruct (assert_n s1 n1) as [[]|]; [|done].
  destruct (assert_m s1 m1) as [[]|]; [|done].
  destruct (assert_n s2 n2) as [[]|]; [|done].
  destruct (assert_m s2 m2) as [[]|]; [|done]. cbn [mbind option_bind].
  destruct status1; cbn; intros [= <-]; cbn; intros H2 [= <-];
    destruct status2; cbn in H2; try discriminate H2; injection H2 as <-;
    cbn; intros E2; try reflexivity; discriminate E2.
Qed.

End extras_outcome.

(** X15: the error messages of [solve] tell the statuses of [Initialize]
    apart: two runs that stop after [Initialize] alone, each storing an
    error, with the same message, had the same status. *)
Theorem solve_message_identifies_status {Number : Type}
    (app1 app2 : IpoptApplication Number) (s1 s2 s1' s2' : IpoptSolver Number)
    (what : string) :
  solve app1 s1 = Some ([Call_Initialize], s1') →
  solve app2 s2 = Some ([Call_Initialize], s2') →
  result_ s1' = IsSolverError what →
  result_ s2' = IsSolverError what →
  Initialize app1 EmptyString = Initialize app2 EmptyString.
Proof.
  unfold solve.
  destruct (Initialize app1 EmptyString); cbn; intros [= <-]; cbn;
    intros H2 [= <-];
    destruct (Initialize app2 EmptyString); cbn in H2; try discriminate H2;
    injection H2 as <-; cbn; intros E2; try reflexivity; discriminate E2.
Qed.

(** X16: the stage at which an error was recorded shows in its message: an
    error stored by [solve] itself, after [Initialize] alone, starts with
    "Ipopt: ", and no error stored by [finalize_solution] or by a failing
    [get_starting_point] does. *)
Theorem error_stage_by_prefix {Number : Type} `{NumberOps Number}
    (Result_lambda : nat → nat → list Number)
    (app_ : IpoptApplication Number) (s s1 s2 s3 : IpoptSolver Number)
    (status : SolverReturn) (n m : Z)
    (x z_L z_U g lambda : list Number) (obj_value : Number)
    (init_x init_z init_lambda : bool)
    (out : list Number * list Number * list Number) :
  (solve app_ s = Some ([Call_Initialize], s1) →
   ∃ what, result_ s1 = IsSolverError what ∧
           String.prefix "Ipopt: " what = true) ∧
  (finalize_solution Result_lambda s status n x z_L z_U m g lambda obj_value
     = Some s2 →
   ∀ what, result_ s2 = IsSolverError what →
           String.prefix "Ipopt: " what = false) ∧
  (get_starting_point s n init_x x init_z z_L z_U m init_lambda lambda
     = Some (false, out, s3) →
   ∀ what, result_ s3 = IsSolverError what →
           String.prefix "Ipopt: " what = false).
Proof.
  split; [|split].
  - unfold solve.
    destruct (Initialize app_ EmptyString); cbn; intros [= <-]; cbn; eauto.
  - unfold finalize_solution.
    destruct (assert_n s n) as [[]|]; [|done].
    destruct (assert_m s m) as [[]|]; [|done]. cbn [mbind option_bind].
    destruct status; cbn; intros [= <-] what; cbn; by intros [= <-].
  - intros Hsp what Hwhat.
    destruct (get_starting_point_fails_iff _ _ _ _ _ _ _ _ _ _ _ _ _ Hsp)
      as (_ & Herr & _).
    rewrite Herr in Hwhat by done. by injection Hwhat as <-.
Qed.

(** ** How the queries compose *)

Section extras_compose.
Context {Number : Type} `{NumberOps Number}.

Lemma Index_of_size_fits (k : nat) :
  Index.of_size k = Z.of_nat k ↔ Z.of_nat k ≤ Index.max.
Proof.
  split; [|apply Index_of_size_id].
  intros Hk. pose proof (Index_wrap_range (Z.of_nat k)) as Hr.
  unfold Index.of_size in Hk. lia.
Qed.

(** X17: the counts [get_nlp_info] reports pass the assertions of the other
    callbacks exactly when the variable count and the constraint count of
    the problem are values of [Index]; and when moreover [n * n] is one, the
    Hessian count it reports passes the check of the structure phase of
    [eval_h]. *)
Theorem get_nlp_info_counts_are_accepted (s : IpoptSolver Number)
    (x : list Number) (new_x : bool) (obj_factor : Number)
    (lambda : list Number) (new_lambda : bool) (iRow jCol : list Z) :
  let fn := Z.of_nat (TwiceDerivableFunction.n (function (problem s))) in
  let cm := Z.of_nat (length (constraints (problem s))) in
  let '(_, (n, m, _, nnz_h_lag, _)) := get_nlp_info s in
  (dims_agree s n m ↔ fn ≤ Index.max ∧ cm ≤ Index.max) ∧
  (fn * fn ≤ Index.max → cm ≤ Index.max →
   ∃ out,
     eval_h s n x new_x obj_factor m lambda new_lambda nnz_h_lag
       iRow jCol None = Some (true, out)).
Proof.
  intros fn cm. unfold get_nlp_info. split.
  - unfold dims_agree. subst fn cm.
    split; intros [H1 H2]; split; try (by apply Index_of_size_fits);
      symmetry; by apply Index_of_size_fits.
  - intros Hnn Hcm.
    assert (fn ≤ Index.max) as Hfn by (unfold Index.max in *; nia).
    subst fn cm.
    rewrite Index_mul_of_size by done.
    rewrite !Index_of_size_id by done.
    unfold eval_h.
    destruct (dims_agree_asserts s _ _ (conj eq_refl eq_refl)) as [-> ->].
    cbn [mbind option_bind]. rewrite <- Nat2Z.inj_mul in *.
    destruct (structure_phase _ _ iRow jCol Hnn) as (iRow' & jCol' & -> & _).
    unfold assert. rewrite Z.eqb_refl. cbn. eauto.
Qed.

(** X18: the buffer filled by [get_starting_point] is the point [eval_f]
    evaluates: on a problem whose starting point has [n] entries, the
    objective query on the buffer written by the starting-point query
    returns component 0 of the objective at the starting point. *)
Theorem starting_point_then_eval_f (s : IpoptSolver Number) (n m : Z)
    (x : list Number) (init_z : bool) (z_L z_U lambda x0 : list Number)
    (new_x : bool) :
  dims_agree s n m →
  startingPoint (problem s) = Some x0 →
  length x0 = Z.to_nat n → length x = Z.to_nat n →
  ∃ x' z_L' z_U',
    get_starting_point s n true x init_z z_L z_U m false lambda
      = Some (true, (x', z_L', z_U'), s) ∧
    eval_f s n x' new_x
      = Some (true,
              vget (TwiceDerivableFunction.call (function (problem s)) x0) 0).
Proof.
  intros Hdims Hstart Hx0 Hx.
  destruct (dims_agree_asserts s n m Hdims) as [Han Ham].
  unfold get_starting_point, eval_f. rewrite Han, Ham, Hstart.
  cbn [mbind option_bind assert eqb].
  destruct (if init_z then _ else _) as [z_L' z_U'].
  exists (vector_to_array x x0), z_L', z_U'. split; [done|].
  rewrite <- Hx0, array_to_vector_to_array by lia. done.
Qed.

(** The part of a buffer at and beyond [rows * cols] is not written by the
    dense loops. *)
Lemma structure_phase_frame (rows cols : nat) (iRow jCol : list Z) :
  Z.of_nat (rows * cols) ≤ Index.max →
  ∃ idx iRow' jCol',
    dense_loop (Z.of_nat rows) (Z.of_nat cols)
      (λ idx i j '(iRow, jCol),
         (<[Z.to_nat idx := i]> iRow, <[Z.to_nat idx := j]> jCol))
      (iRow, jCol) = (idx, (iRow', jCol')) ∧
    ∀ k : nat, (rows * cols ≤ k)%nat →
      iRow' !! k = iRow !! k ∧ jCol' !! k = jCol !! k.
Proof.
  intros Hmax.
  set (write := λ (idx i j : Z) '(iRow, jCol),
         (<[Z.to_nat idx := i]> iRow, <[Z.to_nat idx := j]> (jCol : list Z))).
  destruct (dense_loop_spec fst (λ i _, i) write) with
    (rows := rows) (cols := cols) (st := (iRow, jCol))
    as (_ & _ & Hget1); [by intros idx i j [??] | done |].
  destruct (dense_loop_spec snd (λ _ j, j) write) with
    (rows := rows) (cols := cols) (st := (iRow, jCol))
    as (_ & _ & Hget2); [by intros idx i j [??] | done |].
  cbn zeta in *.
  destruct (dense_loop _ _ write _) as [idx [iRow' jCol']].
  cbn [fst snd] in *. exists idx, iRow', jCol'. split; [done|].
  intros k Hk. rewrite Hget1, Hget2. split; case_decide; (lia || done).
Qed.

Lemma value_phase_frame (rows cols : nat) (h : list (list Number))
    (values : list Number) :
  Z.of_nat (rows * cols) ≤ Index.max →
  ∃ idx values',
    dense_loop (Z.of_nat rows) (Z.of_nat cols)
      (λ idx i j values,
         <[Z.to_nat idx := mget h (Z.to_nat i) (Z.to_nat j)]> values) values
    = (idx, values') ∧
    ∀ k : nat, (rows * cols ≤ k)%nat → values' !! k = values !! k.
Proof.
  intros Hmax.
  destruct (dense_loop_spec id
              (λ i j, mget h (Z.to_nat i) (Z.to_nat j))
              (λ idx i j values,
                 <[Z.to_nat idx := mget h (Z.to_nat i) (Z.to_nat j)]> values))
    with (rows := rows) (cols := cols) (st := values)
    as (_ & _ & Hget); [done | done |].
  cbn zeta in *. destruct (dense_loop _ _ _ _) as [idx values'].
  cbn [fst snd] in *. exists idx, values'. split; [done|].
  intros k Hk. unfold id in Hget. rewrite Hget. case_decide; (lia || done).
Qed.

(** X19: the matrix queries write within the dense count: buffers longer
    than [m * n] keep their entries from position [m * n] on through both
    phases of [eval_jac_g], and a value buffer longer than [n * n] keeps its
    entries from position [n * n] on through the value phase of [eval_h]. *)
Theorem matrix_queries_write_within_count (s : IpoptSolver Number) (n m : Z)
    (x : list Number) (new_x : bool) (obj_factor : Number)
    (lambda : list Number) (new_lambda : bool) (nele_jac nele_hess : Z)
    (iRow jCol : list Z) (values : list Number) :
  dims_agree s n m →
  m * n ≤ Index.max → n * n ≤ Index.max →
  (∃ iRow' jCol',
     eval_jac_g s n x new_x m nele_jac iRow jCol None
       = Some (true, (iRow', jCol', None)) ∧
     ∀ k : nat, m * n ≤ Z.of_nat k →
       iRow' !! k = iRow !! k ∧ jCol' !! k = jCol !! k) ∧
  (∃ values',
     eval_jac_g s n x new_x m nele_jac iRow jCol (Some values)
       = Some (true, (iRow, jCol, Some values')) ∧
     ∀ k : nat, m * n ≤ Z.of_nat k → values' !! k = values !! k) ∧
  (∃ values',
     eval_h s n x new_x obj_factor m lambda new_lambda nele_hess iRow jCol
       (Some values) = Some (true, (iRow, jCol, Some values')) ∧
     ∀ k : nat, n * n ≤ Z.of_nat k → values' !! k = values !! k).
Proof.
  intros Hdims Hmn Hnn.
  destruct (dims_agree_asserts s n m Hdims) as [Han Ham].
  destruct Hdims as [Hn Hm].
  unfold eval_jac_g, eval_h. rewrite Han, Ham. cbn [mbind option_bind].
  subst n m. rewrite <- !Nat2Z.inj_mul in *. rewrite !Nat2Z.id.
  split; [|split].
  - destruct (structure_phase_frame _ _ iRow jCol Hmn)
      as (idx & iRow' & jCol' & -> & Hframe).
    exists iRow', jCol'. split; [done|]. intros k Hk. apply Hframe. lia.
  - match goal with
    | |- context [mget ?h _ _] =>
        destruct (value_phase_frame _ _ h values Hmn)
          as (idx & values' & -> & Hframe)
    end.
    exists values'. split; [done|]. intros k Hk. apply Hframe. lia.
  - match goal with
    | |- context [mget ?h _ _] =>
        destruct (value_phase_frame _ _ h values Hnn)
          as (idx & values' & -> & Hframe)
    end.
    exists values'. split; [done|]. intros k Hk. apply Hframe. lia.
Qed.

End extras_compose.

(** ** The further properties on the concrete problem *)

(** X1 (instance). *)
Lemma get_bounds_info_copies_witness :
  get_bounds_info Sample.solver2 2 [9; 9]%float [9; 9]%float
    2 [9; 9]%float [9; 9]%float
  = Some (true, ([0; 0]%float, [2; 2]%float,
                 [1; 1]%float, [infinity; infinity])).
Proof.
  apply (get_bounds_info_copies Sample.solver2 2 2
           [9; 9]%float [9; 9]%float [9; 9]%float [9; 9]%float).
  - split; reflexivity.
  - reflexivity.
  - reflexivity.
  - reflexivity.
  - reflexivity.
Defined.

(** X2 (instance). *)
Lemma get_scaling_parameters_copies_witness :
  get_scaling_parameters Sample.solver2 7%float false 2 [9; 9]%float
    false 2 [9; 9]%float
  = (true, (7%float, true, [1; 1]%float, true, [1; 1]%float)).
Proof.
  apply (get_scaling_parameters_copies Sample.solver2 7%float false false
           2 2 [9; 9]%float [9; 9]%float).
  - lia.
  - cbn. lia.
  - reflexivity.
  - cbn. lia.
  - reflexivity.
Defined.

(** X3 (instance): the point is written although [x] is not requested. *)
Lemma get_starting_point_present_witness :
  ∃ z_L' z_U',
    get_starting_point Sample.solver 2 false [9; 9; 9]%float
      false [0; 0]%float [0; 0]%float 1 false [0]%float
    = Some (true, ([0.5; 0.5; 9]%float, z_L', z_U'), Sample.solver).
Proof.
  apply (get_starting_point_present Sample.solver 2 1 false
           [9; 9; 9]%float false [0; 0]%float [0; 0]%float [0]%float
           [0.5; 0.5]%float).
  - split; reflexivity.
  - reflexivity.
  - cbn. lia.
Defined.

(** X4 (instance): the failing path with the multipliers requested. *)
Lemma get_starting_point_bound_multipliers_witness :
  ∃ b x' s',
    get_starting_point Sample.solver_without_start 2 true [9; 9]%float
      true [0; 0]%float [0; 0]%float 1 false [0]%float
    = Some (b, (x', [1; 1]%float, [1; 1]%float), s').
Proof.
  exact (get_starting_point_bound_multipliers Sample.solver_without_start
           2 1 true [9; 9]%float true [0; 0]%float [0; 0]%float [0]%float
           (conj eq_refl eq_refl) eq_refl eq_refl).
Defined.

(** X5 (instance). *)
Lemma get_starting_point_fails_iff_witness :
  (false = false ↔
   startingPoint (problem Sample.solver_without_start) = None ∧ true = true) ∧
  (false = false →
   result_ (set_result Sample.solver_without_start
              (IsSolverError "Ipopt method needs a starting point."))
   = IsSolverError "Ipopt method needs a starting point.") ∧
  (false = true →
   set_result Sample.solver_without_start
     (IsSolverError "Ipopt method needs a starting point.")
   = Sample.solver_without_start) ∧
  problem (set_result Sample.solver_without_start
             (IsSolverError "Ipopt method needs a starting point."))
  = problem Sample.solver_without_start.
Proof.
  apply (get_starting_point_fails_iff Sample.solver_without_start 2 1
           true [9; 9]%float false [0; 0]%float [0; 0]%float false [0]%float
           false ([9; 9]%float, [0; 0]%float, [0; 0]%float)).
  reflexivity.
Defined.

(** X6 (instance): the buffer holds one entry more than the point. *)
Lemma objective_queries_witness :
  eval_f Sample.solver2 2 [0.5; 0.5; 9]%float true
    = Some (true, 0.5%float) ∧
  eval_grad_f Sample.solver2 2 [0.5; 0.5; 9]%float true [9; 9]%float
    = Some (true, [1; 1]%float).
Proof.
  apply (objective_queries Sample.solver2 2 2 [0.5; 0.5; 9]%float true
           [9; 9]%float).
  - split; reflexivity.
  - cbn. lia.
  - reflexivity.
Defined.

(** X7 (instance). *)
Lemma eval_jac_g_rows_are_gradients_witness :
  ∃ values',
    eval_jac_g Sample.solver2 2 [0.5; 0.5]%float true 2 4 [] []
      (Some [9; 9; 9; 9]%float)
    = Some (true, ([], [], Some values')) ∧
    ∀ (i j : nat) (c : TwiceDerivableFunction.t float),
      constraints (problem Sample.solver2) !! i = Some c → Z.of_nat j < 2 →
      values' !! (i * Z.to_nat 2 + j)%nat
      = Some (vget (TwiceDerivableFunction.gradient c
                      (array_to_vector (vector (Z.to_nat 2))
                         [0.5; 0.5]%float) 0) j).
Proof.
  apply (eval_jac_g_rows_are_gradients Sample.solver2 2 2).
  - split; reflexivity.
  - index_bound.
  - reflexivity.
Defined.

(** X8 (instance). *)
Lemma eval_h_symmetric_witness :
  ∃ values',
    eval_h Sample.solver2 2 [0.5; 0.5]%float true 1%float 2 [3; 4]%float
      true 4 [] [] (Some [9; 9; 9; 9]%float)
    = Some (true, ([], [], Some values')) ∧
    ∀ r c : nat, Z.of_nat r < 2 → Z.of_nat c < 2 →
      values' !! (r * Z.to_nat 2 + c)%nat
      = values' !! (c * Z.to_nat 2 + r)%nat.
Proof.
  apply (eval_h_symmetric Sample.solver2 2 2).
  - split; reflexivity.
  - index_bound.
  - index_bound.
  - reflexivity.
  - reflexivity.
  - intros [|[|r]] [|[|c]] Hr Hc; (reflexivity || (cbn in Hr, Hc; lia)).
  - repeat constructor;
      intros [|[|r]] [|[|c]] Hr Hc; (reflexivity || (cbn in Hr, Hc; lia)).
Defined.

(** X9 (instance): the problem of 46341 variables has no constraint; the
    counts passed are its own. *)
Lemma no_constraints_witness :
  eval_g Sample.wide 46341 [] true 0 [9]%float = Some (true, [9]%float) ∧
  eval_jac_g Sample.wide 46341 [] true 0 0 [7] [7] None
    = Some (true, ([7], [7], None)) ∧
  eval_jac_g Sample.wide 46341 [] true 0 0 [7] [7] (Some [9]%float)
    = Some (true, ([7], [7], Some [9]%float)) ∧
  eval_h Sample.wide 46341 [] true 1%float 0 [3]%float true 0 [7] [7]
    (Some [9]%float)
  = eval_h Sample.wide 46341 [] true 1%float 0 [4]%float true 0 [7] [7]
      (Some [9]%float).
Proof.
  apply (no_constraints Sample.wide 46341 0 [] true [9]%float 0 [7] [7]
           [9]%float 1%float [3]%float [4]%float true 0).
  - reflexivity.
  - split; [|reflexivity]. cbn. lia.
Defined.

(** X10 (instance): the count 5 is refused for the 2 × 2 Hessian. *)
Lemma eval_h_checks_element_count_witness :
  (eval_h Sample.solver2 2 [0.5; 0.5]%float true 1%float 2 [3; 4]%float
     true 5 [0; 0; 0; 0] [0; 0; 0; 0] None = None ↔ 5 ≠ 2 * 2) ∧
  ∃ out,
    eval_jac_g Sample.solver2 2 [0.5; 0.5]%float true 2 5
      [0; 0; 0; 0] [0; 0; 0; 0] None = Some (true, out).
Proof.
  apply (eval_h_checks_element_count Sample.solver2 2 2).
  - split; reflexivity.
  - index_bound.
Defined.

(** X11 (instance): three variables announced for a problem of two, two
    constraints announced for a problem of one. *)
Lemma count_mismatch_aborts_witness :
  eval_f Sample.solver 3 [0.5; 0.5; 0.5]%float true = None ∧
  get_function_linearity Sample.solver 2 [LINEAR; LINEAR] = None ∧
  eval_g Sample.solver 2 [0.5; 0.5]%float true 2 [0; 0]%float = None ∧
  finalize_solution Sample.Result_lambda Sample.solver SUCCESS
    2 [0.5; 0.5]%float [0; 0]%float [0; 0]%float
    2 [0; 0]%float [1; 1]%float 0.5%float = None.
Proof.
  destruct (count_mismatch_aborts Sample.Result_lambda Sample.solver 3 2
              [0.5; 0.5; 0.5]%float true [] [] [] [] [] []
              [] [LINEAR; LINEAR] false false false [] [] []
              0 0 [] [] None 1%float 0.5%float true SUCCESS)
    as (Hn & Hm & _).
  destruct (count_mismatch_aborts Sample.Result_lambda Sample.solver 2 2
              [0.5; 0.5]%float true [] [0; 0]%float [] [] [] []
              [] [] false false false [0; 0]%float [0; 0]%float
              [1; 1]%float 0 0 [] [] None 1%float 0.5%float true SUCCESS)
    as (_ & _ & Hnm).
  split; [apply Hn; discriminate|].
  split; [apply Hm; discriminate|].
  split; apply Hnm; right; discriminate.
Defined.

(** X12 (instance). *)
Lemma finalize_solution_success_payload_witness :
  finalize_solution Sample.Result_lambda Sample.solver FEASIBLE_POINT_FOUND
    2 [0.5; 0.5]%float [0; 0]%float [0; 0]%float
    1 [1]%float [0.25]%float 0.5%float
  = Some (set_result Sample.solver
            (IsResult
               {| Result.inputSize := 2;
                  Result.outputSize := 1;
                  Result.x := [0.5; 0.5]%float;
                  Result.value := [0.5]%float;
                  Result.lambda := [0.25]%float |})).
Proof.
  apply (finalize_solution_success_payload Sample.Result_lambda Sample.solver
           FEASIBLE_POINT_FOUND 2 1).
  - split; reflexivity.
  - by right.
  - cbn. lia.
  - cbn. lia.
Defined.

(** X13 (instance): a slot that holds an error, and other bound
    multipliers and constraint values. *)
Lemma finalize_solution_overwrites_witness :
  finalize_solution Sample.Result_lambda
    (set_result Sample.solver (IsSolverError "Out of memory.")) SUCCESS
    2 [0.5; 0.5]%float [0; 0]%float [0; 0]%float
    1 [1]%float [0.25]%float 0.5%float
  = finalize_solution Sample.Result_lambda Sample.solver SUCCESS
      2 [0.5; 0.5]%float [7; 7]%float [8; 8]%float
      1 [9]%float [0.25]%float 0.5%float ∧
  problem (set_result Sample.solver
             (IsSolverError "Max iteration exceeded."))
  = problem Sample.solver.
Proof.
  split.
  - apply (finalize_solution_overwrites Sample.Result_lambda Sample.solver).
  - apply (finalize_solution_overwrites Sample.Result_lambda Sample.solver
             NoSolution MAXITER_EXCEEDED 2 1 [0.5; 0.5]%float
             [0; 0]%float [0; 0]%float [1]%float
             [0; 0]%float [0; 0]%float [1]%float [0.25]%float 0.5%float).
    reflexivity.
Defined.

(** X14 (instance): the same message from two solvers. *)
Lemma finalize_solution_message_identifies_code_witness :
  INVALID_OPTION = INVALID_OPTION.
Proof.
  apply (finalize_solution_message_identifies_code Sample.Result_lambda
           Sample.solver Sample.solver2
           (set_result Sample.solver (IsSolverError "Invalid option."))
           (set_result Sample.solver2 (IsSolverError "Invalid option."))
           INVALID_OPTION INVALID_OPTION 2 1 2 2
           [] [] [] [] [] [] [] [] [] [] 0%float 1%float "Invalid option.").
  - reflexivity.
  - reflexivity.
  - reflexivity.
  - reflexivity.
Defined.

(** X15 (instance). *)
Lemma solve_message_identifies_status_witness :
  Initialize (Sample.app Invalid_Option) EmptyString
  = Initialize (Sample.app Invalid_Option) EmptyString.
Proof.
  apply (solve_message_identifies_status
           (Sample.app Invalid_Option) (Sample.app Invalid_Option)
           Sample.solver Sample.solver2
           (set_result Sample.solver (IsSolverError "Ipopt: invalid option."))
           (set_result Sample.solver2
              (IsSolverError "Ipopt: invalid option."))
           "Ipopt: invalid option.").
  - reflexivity.
  - reflexivity.
  - reflexivity.
  - reflexivity.
Defined.

(** X16 (instance): one error of each stage. *)
Lemma error_stage_by_prefix_witness :
  (∃ what,
     result_ (set_result Sample.solver_without_start
                (IsSolverError "Ipopt: restoration failed."))
     = IsSolverError what ∧ String.prefix "Ipopt: " what = true) ∧
  String.prefix "Ipopt: " "Restoration phase failed." = false ∧
  String.prefix "Ipopt: " "Ipopt method needs a starting point." = false.
Proof.
  destruct (error_stage_by_prefix Sample.Result_lambda
              (Sample.app Restoration_Failed) Sample.solver_without_start
              (set_result Sample.solver_without_start
                 (IsSolverError "Ipopt: restoration failed."))
              (set_result Sample.solver_without_start
                 (IsSolverError "Restoration phase failed."))
              (set_result Sample.solver_without_start
                 (IsSolverError "Ipopt method needs a starting point."))
              RESTORATION_FAILURE 2 1 [9; 9]%float [0; 0]%float [0; 0]%float
              [1]%float [0]%float 0.5%float true false false
              ([9; 9]%float, [0; 0]%float, [0; 0]%float))
    as (Hsolve & Hfinal & Hstart).
  split; [apply Hsolve; reflexivity|].
  split; [apply Hfinal; reflexivity|apply Hstart; reflexivity].
Defined.

(** X17 (instance). *)
Lemma get_nlp_info_counts_are_accepted_witness :
  ∃ out,
    eval_h Sample.solver2 2 [0.5; 0.5]%float true 1%float 2 [3; 4]%float
      true 4 [0; 0; 0; 0] [0; 0; 0; 0] None = Some (true, out).
Proof.
  apply (get_nlp_info_counts_are_accepted Sample.solver2 [0.5; 0.5]%float
           true 1%float [3; 4]%float true [0; 0; 0; 0] [0; 0; 0; 0]).
  - cbn. index_bound.
  - cbn. index_bound.
Defined.

(** X18 (instance). *)
Lemma starting_point_then_eval_f_witness :
  ∃ x' z_L' z_U',
    get_starting_point Sample.solver 2 true [9; 9]%float false
      [0; 0]%float [0; 0]%float 1 false [0]%float
      = Some (true, (x', z_L', z_U'), Sample.solver) ∧
    eval_f Sample.solver 2 x' false = Some (true, 0.5%float).
Proof.
  apply (starting_point_then_eval_f Sample.solver 2 1 [9; 9]%float false
           [0; 0]%float [0; 0]%float [0]%float [0.5; 0.5]%float false).
  - split; reflexivity.
  - reflexivity.
  - reflexivity.
  - reflexivity.
Defined.

(** X19 (instance): buffers of six entries for matrices of four. *)
Lemma matrix_queries_write_within_count_witness :
  (∃ iRow' jCol',
     eval_jac_g Sample.solver2 2 [0.5; 0.5]%float true 2 4
       [7; 7; 7; 7; 7; 7] [7; 7; 7; 7; 7; 7] None
       = Some (true, (iRow', jCol', None)) ∧
     ∀ k : nat, 2 * 2 ≤ Z.of_nat k →
       iRow' !! k = [7; 7; 7; 7; 7; 7] !! k ∧
       jCol' !! k = [7; 7; 7; 7; 7; 7] !! k) ∧
  (∃ values',
     eval_jac_g Sample.solver2 2 [0.5; 0.5]%float true 2 4
       [7; 7; 7; 7; 7; 7] [7; 7; 7; 7; 7; 7]
       (Some [9; 9; 9; 9; 9; 9]%float)
       = Some (true, ([7; 7; 7; 7; 7; 7], [7; 7; 7; 7; 7; 7], Some values')) ∧
     ∀ k : nat, 2 * 2 ≤ Z.of_nat k →
       values' !! k = [9; 9; 9; 9; 9; 9]%float !! k) ∧
  (∃ values',
     eval_h Sample.solver2 2 [0.5; 0.5]%float true 1%float 2 [3; 4]%float
       true 4 [7; 7; 7; 7; 7; 7] [7; 7; 7; 7; 7; 7]
       (Some [9; 9; 9; 9; 9; 9]%float)
       = Some (true, ([7; 7; 7; 7; 7; 7], [7; 7; 7; 7; 7; 7], Some values')) ∧
     ∀ k : nat, 2 * 2 ≤ Z.of_nat k →
       values' !! k = [9; 9; 9; 9; 9; 9]%float !! k).
Proof.
  apply (matrix_queries_write_within_count Sample.solver2 2 2).
  - split; reflexivity.
  - index_bound.
  - index_bound.
Defined.
